(** * GSTR-1 workbook assembly (services/api.ts): a shallow embedding

    The development follows the second half of [src/services/api.ts]:
    [columnMappings], [getSheetName], [cleanPlaceOfSupply], [trimAll],
    [parseCSV], [appendDataToSheet] and [generateGSTR1Excel].  It also
    covers [generateFinancialYears] of [src/services/utils.ts] and, of the
    party workspace of the CA dashboard, the grouping of the uploads by
    month and the state update of [handleMapSheet].

    Modelling conventions.
    - A JavaScript string is a [string] of 8-bit characters.  White space
      ([String.prototype.trim], the regular-expression class \s) and letter
      case are the ASCII ones; characters above 127 are opaque.
    - A plain JavaScript object with string keys is an association list kept
      in property order ([JSObject]); it holds the own properties.  An
      assignment to the name [__proto__] makes no property ([set_field]).
      [obj_get] reads an own property.  Where the code reads a key that
      the object lacks and that names a member of [Object.prototype]
      ([inherited]), it finds the member.  The grouping of the uploads
      models that read.  In the merge [resolve] reads own properties only:
      a record that lacks a template header naming such a member is
      outside the model, and the property that follows a header name of a
      file to the cells of a later file excludes these names.
    - A JavaScript number is [JSNumber]: the exact rational denoted by the
      parsed literal stands for the IEEE-754 double nearest to it.
    - A worksheet of the xlsx library is its ['!ref'] range and a finite map
      from (row, column) to cells; [encode_cell] is the pair itself.
    - An exception is the [Err] branch of [Result].
    - [generateGSTR1Excel] is the function up to the workbook it hands to
      [XLSX.write]; [generateGSTR1Excel_blob] adds the write, with the
      checks of the library that throw, and the [Blob].  The bytes
      written are not modelled.
    - The date read by [generateFinancialYears] is the pair of its year
      and its month ([Today]); numbers that are integers are [Z] or [nat].

    The model comes first, then the vocabulary of the properties, then the
    properties, grouped by component. *)

From Stdlib Require Import ZArith QArith String Ascii List Lia Bool.
From Stdlib Require Import Sorted Permutation DecimalString.
From stdpp Require Import base option list gmap strings.
Import ListNotations.

Local Open Scope string_scope.
Local Open Scope nat_scope.

(** ** Strings *)

Module JSString.

(** WhiteSpace and LineTerminator code points below 128: TAB, LF, VT, FF, CR
    and SPACE. *)
Definition is_space (c : ascii) : bool :=
  let n := nat_of_ascii c in
  ((9 <=? n) && (n <=? 13)) || (n =? 32).

(** The class \d of regular expressions. *)
Definition is_digit (c : ascii) : bool :=
  let n := nat_of_ascii c in
  (48 <=? n) && (n <=? 57).

Definition is_empty (s : string) : bool :=
  match s with
  | EmptyString => true
  | String _ _ => false
  end.

Fixpoint trimStart (s : string) : string :=
  match s with
  | EmptyString => EmptyString
  | String c s' => if is_space c then trimStart s' else s
  end.

Fixpoint trimEnd (s : string) : string :=
  match s with
  | EmptyString => EmptyString
  | String c s' =>
      let r := trimEnd s' in
      if is_space c && is_empty r then EmptyString else String c r
  end.

(** [s.trim()] *)
Definition trim (s : string) : string := trimEnd (trimStart s).

Definition upper_char (c : ascii) : ascii :=
  let n := nat_of_ascii c in
  if (97 <=? n) && (n <=? 122) then ascii_of_nat (n - 32) else c.

Definition lower_char (c : ascii) : ascii :=
  let n := nat_of_ascii c in
  if (65 <=? n) && (n <=? 90) then ascii_of_nat (n + 32) else c.

Fixpoint map_chars (f : ascii -> ascii) (s : string) : string :=
  match s with
  | EmptyString => EmptyString
  | String c s' => String (f c) (map_chars f s')
  end.

(** [s.toUpperCase()] and [s.toLowerCase()] *)
Definition toUpperCase : string -> string := map_chars upper_char.
Definition toLowerCase : string -> string := map_chars lower_char.

(** [s.includes(sub)] *)
Fixpoint includes (s sub : string) : bool :=
  String.prefix sub s ||
  match s with
  | EmptyString => false
  | String _ s' => includes s' sub
  end.

(** [s.replace(/,/g, '')] *)
Fixpoint remove_commas (s : string) : string :=
  match s with
  | EmptyString => EmptyString
  | String c s' =>
      if Ascii.eqb c "," then remove_commas s' else String c (remove_commas s')
  end.

(** Put a character in front of the first line of a non-empty list of
    lines. *)
Definition push_front (c : ascii) (ls : list string) : list string :=
  match ls with
  | [] => [String c EmptyString]
  | l :: ls' => String c l :: ls'
  end.

(** [s.split(/\r?\n/)]: a separator is LF, or CR immediately followed by
    LF; a lone CR stays in its line.  The empty string gives one empty
    line. *)
Fixpoint split_lines (s : string) : list string :=
  match s with
  | EmptyString => [EmptyString]
  | String c s' =>
      if Ascii.eqb c "010" then EmptyString :: split_lines s'
      else
        match s' with
        | String c2 s'' =>
            if Ascii.eqb c "013" && Ascii.eqb c2 "010"
            then EmptyString :: split_lines s''
            else push_front c (split_lines s')
        | EmptyString => push_front c (split_lines s')
        end
  end.

(** The longest prefix of digits, and what follows it. *)
Fixpoint span_digits (s : string) : string * string :=
  match s with
  | EmptyString => (EmptyString, EmptyString)
  | String c s' =>
      if is_digit c
      then let '(d, r) := span_digits s' in (String c d, r)
      else (EmptyString, s)
  end.

End JSString.

Import JSString.

(** ** Numbers *)

(** The value of a JavaScript number.  [Finite q] is the double nearest to
    the rational [q]; rounding and the sign of zero are not modelled. *)
Inductive JSNumber : Type :=
| NaN
| Infinity (negative : bool)
| Finite (q : Q).

Definition isNaN (n : JSNumber) : bool :=
  match n with
  | NaN => true
  | _ => false
  end.

Definition digit_value (c : ascii) : Z := Z.of_nat (nat_of_ascii c - 48).

(** The value of a string of decimal digits, most significant first. *)
Fixpoint digits_value_from (acc : Z) (d : string) : Z :=
  match d with
  | EmptyString => acc
  | String c d' => digits_value_from (10 * acc + digit_value c)%Z d'
  end.

Definition digits_value (d : string) : Z := digits_value_from 0%Z d.

(** [m * 10^e] as a reduced fraction. *)
Definition scale10 (m e : Z) : Q :=
  if (0 <=? e)%Z
  then Qred (Qmake (m * 10 ^ e)%Z 1)
  else Qred (Qmake m (Z.to_pos (10 ^ (- e)))).

(** The optional ExponentPart of a StrDecimalLiteral: [e] or [E], an
    optional sign and at least one digit.  Without a well-formed exponent
    the literal ends before it. *)
Definition parse_exponent (s : string) : Z :=
  match s with
  | String c r =>
      if Ascii.eqb c "e" || Ascii.eqb c "E" then
        let '(neg, r1) :=
          match r with
          | String "-" r' => (true, r')
          | String "+" r' => (false, r')
          | _ => (false, r)
          end in
        let '(d, _) := span_digits r1 in
        if is_empty d then 0%Z
        else if neg then (- digits_value d)%Z else digits_value d
      else 0%Z
  | EmptyString => 0%Z
  end.

(** [parseFloat(s)]: leading white space is skipped and the longest prefix
    that is a StrDecimalLiteral is converted; [NaN] when there is none. *)
Definition parseFloat (s : string) : JSNumber :=
  let s0 := trimStart s in
  let '(neg, s1) :=
    match s0 with
    | String "-" r => (true, r)
    | String "+" r => (false, r)
    | _ => (false, s0)
    end in
  if String.prefix "Infinity" s1 then Infinity neg
  else
    let '(ip, r1) := span_digits s1 in
    let '(dot, fp, r2) :=
      match r1 with
      | String "." r =>
          let '(fp, r2) := span_digits r in
          if is_empty ip && is_empty fp then (false, EmptyString, r1)
          else (true, fp, r2)
      | _ => (false, EmptyString, r1)
      end in
    if is_empty ip && negb dot then NaN
    else
      let m := digits_value (ip ++ fp) in
      let e := (parse_exponent r2 - Z.of_nat (String.length fp))%Z in
      Finite (scale10 (if neg then - m else m)%Z e).

(** [s.match(/^-?\d+\.?\d*$/)] is not null. *)
Definition matches_numeric (s : string) : bool :=
  let s1 := match s with String "-" r => r | _ => s end in
  let '(ip, r1) := span_digits s1 in
  let r2 := match r1 with String "." r => r | _ => r1 end in
  let '(_, r3) := span_digits r2 in
  negb (is_empty ip) && is_empty r3.

(** ** Plain objects *)

(** A plain object whose values are strings, in property order: the keys
    that are array indices come first in ascending numeric order, the other
    keys follow in insertion order (OrdinaryOwnPropertyKeys). *)
Definition JSObject : Type := list (string * string).

(** The number denoted by a key that is a canonical array index: "0", or
    digits without a leading zero, below 2^32 - 1. *)
Definition array_index (k : string) : option Z :=
  let '(d, r) := span_digits k in
  if is_empty d || negb (is_empty r) then None
  else
    match d with
    | String "0" (String _ _) => None
    | _ =>
        if (digits_value d <? 4294967295)%Z && (String.length d <=? 10)
        then Some (digits_value d) else None
    end.

(** Does a new key [k] come before the existing key [k']? *)
Definition key_before (k k' : string) : bool :=
  match array_index k, array_index k' with
  | Some i, Some j => (i <? j)%Z
  | Some _, None => true
  | None, _ => false
  end.

(** [o[k]]; [None] is [undefined]. *)
Fixpoint obj_get (k : string) (o : JSObject) : option string :=
  match o with
  | [] => None
  | (k', v) :: o' => if String.eqb k k' then Some v else obj_get k o'
  end.

(** [o[k] = v] *)
Fixpoint obj_set (k v : string) (o : JSObject) : JSObject :=
  match o with
  | [] => [(k, v)]
  | (k', v') :: o' =>
      if String.eqb k k' then (k, v) :: o'
      else if key_before k k' then (k, v) :: (k', v') :: o'
      else (k', v') :: obj_set k v o'
  end.

(** [Object.keys(o)] *)
Definition obj_keys (o : JSObject) : list string := map fst o.

(** The names of the members of [Object.prototype], which every plain
    object inherits: a read of such a name on an object without the key
    gives the inherited member, not [undefined]. *)
Definition Object_prototype_members : list string :=
  [ "constructor"; "hasOwnProperty"; "isPrototypeOf"; "propertyIsEnumerable";
    "toLocaleString"; "toString"; "valueOf"; "__proto__";
    "__defineGetter__"; "__defineSetter__"; "__lookupGetter__";
    "__lookupSetter__" ].

Definition inherited (k : string) : bool :=
  existsb (String.eqb k) Object_prototype_members.

(** [Object.fromEntries(l)] *)
Definition fromEntries (l : list (string * string)) : JSObject :=
  fold_left (fun o kv => obj_set (fst kv) (snd kv) o) l [].

(** [a.forEach((x, i) => ...)] threading the state the callback mutates;
    [i] is the index of the first element. *)
Fixpoint forEach {A S : Type} (f : S -> A -> nat -> S) (a : list A)
    (i : nat) (st : S) : S :=
  match a with
  | [] => st
  | x :: a' => forEach f a' (Datatypes.S i) (f st x i)
  end.

(** ** Column mappings *)

(** The right-hand side of a mapping entry: [string | string[]]. *)
Inductive MapTarget : Type :=
| One (excelCol : string)
| Many (excelCols : list string).

(** [Array.isArray(excelCol) ? excelCol : [excelCol]] *)
Definition excelCols_of (t : MapTarget) : list string :=
  match t with
  | One c => [c]
  | Many cs => cs
  end.

(** [Object.entries(mapping)]: source column, template column(s). *)
Definition Mapping : Type := list (string * MapTarget).

Definition columnMappings : list (string * Mapping) :=
  [ ("b2b",
     [ ("GSTIN/UIN of Recipient", One "GSTIN/UIN");
       ("Invoice Number", One "Invoice No");
       ("Invoice date", One "Date of Invoice");
       ("Invoice Value", One "Invoice Value");
       ("Rate", One "GST%");
       ("Taxable Value", One "Taxable Value");
       ("Cess Amount", One "CESS");
       ("Place Of Supply", One "Place Of Supply");
       ("Reverse Charge", One "RCM Applicable");
       ("Invoice Type", One "Invoice Type");
       ("E-Commerce GSTIN", One "E-Commerce GSTIN") ]);
    ("b2cl",
     [ ("Invoice Number", One "Invoice No");
       ("Invoice date", One "Date of Invoice");
       ("Invoice Value", One "Invoice Value");
       ("Place Of Supply", One "Place Of Supply");
       ("Rate", One "GST%");
       ("Taxable Value", One "Taxable Value");
       ("Cess Amount", One "CESS");
       ("E-Commerce GSTIN", One "E-Commerce GSTIN") ]);
    ("b2cs",
     [ ("Type", One "Type");
       ("Place Of Supply", One "Place Of Supply");
       ("Rate", One "GST%");
       ("Taxable Value", One "Taxable Value");
       ("Cess Amount", One "CESS");
       ("E-Commerce GSTIN", One "E-Commerce GSTIN") ]);
    ("export",
     [ ("Export Type", One "Export Type");
       ("Invoice Number", One "Invoice No");
       ("Invoice date", One "Date of Invoice");
       ("Invoice Value", One "Invoice Value");
       ("Port Code", One "Port Code");
       ("Shipping Bill Number", One "Shipping Bill No");
       ("Shipping Bill Date", One "Shipping Bill Date");
       ("Rate", One "GST%");
       ("Taxable Value", One "Taxable Value") ]);
    ("Nil_exempt_NonGST",
     [ ("Description", One "Description");
       ("Nil Rated Supplies", One "Nil Rated Supplies");
       ("Exempted (other than nil rated/non GST supply)",
        One "Exempted (other than nil rated/non GST supply)");
       ("Non-GST supplies", One "Non-GST Supplies") ]);
    ("cdnr",
     [ ("GSTIN/UIN of Recipient", One "GSTIN/UIN");
       ("Note Number", One "Dr./ Cr. No.");
       ("Note Date", One "Dr./Cr. Date");
       ("Note Type", One "Type of note                (Dr/ Cr)");
       ("Place Of Supply", One "Place of supply");
       ("Reverse Charge", One "RCM");
       ("Note Supply Type", One "Invoice Type");
       ("Note Value", One "Dr./Cr. Value");
       ("Rate", One "GST%");
       ("Taxable Value", One "Taxable Value");
       ("Cess Amount", One "CESS") ]);
    ("cdnur",
     [ ("UR Type", One "Supply Type");
       ("Note/Refund Voucher Number", One "Dr./ Cr. Note No.");
       ("Note/Refund Voucher date", One "Dr./ Cr. Note Date");
       ("Document Type", One "Type of note (Dr./ Cr.)");
       ("Place Of Supply", One "Place of supply");
       ("Note/Refund Voucher Value", One "Dr./Cr. Note Value");
       ("Rate", One "GST%");
       ("Taxable Value", One "Taxable Value");
       ("Cess Amount", One "CESS") ]);
    ("hsn",
     [ ("Type", One "Type");
       ("HSN", One "HSN");
       ("Description", One "Description");
       ("UQC", One "UQC");
       ("Total Quantity", One "Total Quantity");
       ("Total Value", One "Total Value");
       ("Rate", One "Rate");
       ("Taxable Value", One "Total Taxable Value");
       ("Integrated Tax Amount", One "IGST");
       ("Central Tax Amount", One "CGST");
       ("State/UT Tax Amount", One "SGST");
       ("Cess Amount", One "CESS") ]) ].

(** [columnMappings[sheetName] || {}] *)
Fixpoint mapping_for_in (table : list (string * Mapping)) (sheetName : string)
    : Mapping :=
  match table with
  | [] => []
  | (n, m) :: table' =>
      if String.eqb sheetName n then m else mapping_for_in table' sheetName
  end.

Definition mapping_for : string -> Mapping := mapping_for_in columnMappings.

(** ** Classification and text clean-up *)

Definition getSheetName (fileName : string) : option string :=
  let u := toUpperCase fileName in
  if includes u "HSN" then Some "hsn"
  else if includes u "B2CL" then Some "b2cl"
  else if includes u "B2CS" then Some "b2cs"
  else if includes u "B2B" then Some "b2b"
  else if includes u "EXP" then Some "export"
  else if includes u "EXEMP" then Some "Nil_exempt_NonGST"
  else if includes u "CDNUR" then Some "cdnur"
  else if includes u "CDNR" then Some "cdnr"
  else None.

(** [s.replace(/^\d+-\s*/, '')]: the leading digits must be followed at
    once by the dash; the white space after the dash goes as well. *)
Definition strip_code_prefix (s : string) : string :=
  let '(d, r) := span_digits s in
  if is_empty d then s
  else
    match r with
    | String "-" r' => trimStart r'
    | _ => s
    end.

Definition cleanPlaceOfSupply (value : string) : string :=
  trim (strip_code_prefix (trim value)).

Definition trimAll (obj : JSObject) : JSObject :=
  fromEntries (map (fun kv => (fst kv, trim (snd kv))) obj).

(** ** The delimited-text parser *)

(** The loop of [parseLine]: [result], [current] and [inQuotes] are its
    three variables. *)
Fixpoint parseLine_loop (line : string) (result : list string)
    (current : string) (inQuotes : bool) : list string :=
  match line with
  | EmptyString => result ++ [trim current]
  | String char rest =>
      if Ascii.eqb char "034" then
        parseLine_loop rest result current (negb inQuotes)
      else if Ascii.eqb char "," && negb inQuotes then
        parseLine_loop rest (result ++ [trim current]) EmptyString inQuotes
      else
        parseLine_loop rest result (current ++ String char EmptyString)
          inQuotes
  end.

Definition parseLine (line : string) : list string :=
  parseLine_loop line [] EmptyString false.

(** [row[h] = values[i] || '']: an assignment on an object made by [{}].
    The name [__proto__] is the accessor inherited from [Object.prototype],
    whose setter ignores a string: the record gets no property.  Every
    other name becomes an own property. *)
Definition set_field (values : list string) (row : JSObject) (h : string)
    (i : nat) : JSObject :=
  if String.eqb h "__proto__" then row
  else obj_set h (nth i values EmptyString) row.

(** [headers.forEach((h, i) => { row[h] = values[i] || ''; })] from the
    empty object. *)
Definition build_row (headers values : list string) : JSObject :=
  forEach (set_field values) headers 0 [].

(** [l => l.trim()] as a test: the trimmed line is not the empty string. *)
Definition not_blank (l : string) : bool := negb (is_empty (trim l)).

Definition parseCSV (text : string) : list JSObject :=
  let lines := split_lines (trim text) in
  if length lines <=? 1 then []
  else
    let headers := parseLine (hd EmptyString lines) in
    map (fun line => build_row headers (parseLine line))
      (List.filter not_blank (tl lines)).

(** ** Cells, worksheets and workbooks of the xlsx library *)

(** The cell types the code writes or may find in a template. *)
Inductive CellType : Type := TStr | TNum | TBool | TStub.

Inductive CellValue : Type :=
| VStr (s : string)
| VNum (n : JSNumber)
| VBool (b : bool).

(** A cell object [{ t, v }]; [cell_v = None] is a cell without [v]. *)
Record Cell : Type := mkCell { cell_t : CellType; cell_v : option CellValue }.

(** [{ t: 's', v: s }] and [{ t: 'n', v: n }] *)
Definition text_cell (s : string) : Cell := mkCell TStr (Some (VStr s)).
Definition number_cell (n : JSNumber) : Cell := mkCell TNum (Some (VNum n)).

(** A decoded range: start and end row and column, all zero-based. *)
Record Range : Type := mkRange { s_r : nat; s_c : nat; e_r : nat; e_c : nat }.

(** [decode_range('A1')] *)
Definition range_A1 : Range := mkRange 0 0 0 0.

(** A worksheet: its ['!ref'], if any, and its cells by (row, column). *)
Record WorkSheet : Type :=
  mkSheet { ref : option Range; cells : gmap (nat * nat) Cell }.

Record WorkBook : Type :=
  mkBook { SheetNames : list string; Sheets : gmap string WorkSheet }.

Record CsvFileInput : Type := mkFile { name : string; content : string }.

Inductive Result (A : Type) : Type :=
| Ok (a : A)
| Err (msg : string).
Arguments Ok {A} a.
Arguments Err {A} msg.

(** [XLSX.utils.book_new()] *)
Definition book_new : WorkBook := mkBook [] ∅.

(** [XLSX.utils.book_append_sheet(wb, ws, name)]: the library refuses a
    name that is already in [SheetNames]. *)
Definition book_append_sheet (wb : WorkBook) (ws : WorkSheet) (name : string)
    : Result WorkBook :=
  if bool_decide (name ∈ SheetNames wb)
  then Err "Worksheet already exists"
  else Ok (mkBook (SheetNames wb ++ [name]) (<[name := ws]> (Sheets wb))).

(** [hdr.indexOf(k)] *)
Fixpoint indexOf (k : string) (hdr : list string) : option nat :=
  match hdr with
  | [] => None
  | h :: hdr' =>
      if String.eqb k h then Some 0
      else match indexOf k hdr' with
           | Some i => Some (S i)
           | None => None
           end
  end.

(** One key of one record in [json_to_sheet]: the key gets the next free
    column the first time it is met, and the value, a string, becomes a
    text cell one row below its record index. *)
Definition add_json_cell (R : nat)
    (st : list string * gmap (nat * nat) Cell) (kv : string * string)
    : list string * gmap (nat * nat) Cell :=
  let '(hdr, cs) := st in
  let '(C, hdr') :=
    match indexOf (fst kv) hdr with
    | Some C => (C, hdr)
    | None => (length hdr, (hdr ++ [fst kv])%list)
    end in
  (hdr', <[(R + 1, C) := text_cell (snd kv)]> cs).

(** The loop of [json_to_sheet] over the records: the header found and the
    cells of the rows below it. *)
Definition json_rows (data : list JSObject)
    : list string * gmap (nat * nat) Cell :=
  forEach (fun st JS R => fold_left (add_json_cell R) JS st) data 0 ([], ∅).

(** [XLSX.utils.json_to_sheet(data)] with the default options, for records
    whose values are strings: the keys met, in order, are the header
    row 0; record [R] fills row [R + 1]; every cell is a text cell; the
    range starts at A1. *)
Definition json_to_sheet (data : list JSObject) : WorkSheet :=
  let '(hdr, cs) := json_rows data in
  let cs' := forEach (fun m h C => <[(0, C) := text_cell h]> m) hdr 0 cs in
  mkSheet (Some (mkRange 0 0 (length data) (length hdr - 1))) cs'.

(** [XLSX.utils.decode_range(sheet['!ref'] || 'A1')] *)
Definition sheet_range (sheet : WorkSheet) : Range :=
  default range_A1 (ref sheet).

(** [parseCSV(content).map(row => trimAll(row))] *)
Definition file_data (file : CsvFileInput) : list JSObject :=
  map trimAll (parseCSV (content file)).

Section Merge.

(** [Number.prototype.toString], which only a numeric header cell of a
    template needs. *)
Variable Number_toString : JSNumber -> string.

(** [v.toString()] *)
Definition value_toString (v : CellValue) : string :=
  match v with
  | VStr s => s
  | VNum n => Number_toString n
  | VBool true => "true"
  | VBool false => "false"
  end.

(** [cell?.v?.toString().trim() ?? ''] *)
Definition header_text (cell : option Cell) : string :=
  match cell with
  | Some (mkCell _ (Some v)) => trim (value_toString v)
  | _ => EmptyString
  end.

(** [cell?.v !== undefined && cell?.v !== null && cell?.v !== ''] *)
Definition has_value (cell : option Cell) : bool :=
  match cell with
  | Some (mkCell _ (Some (VStr s))) => negb (is_empty s)
  | Some (mkCell _ (Some _)) => true
  | _ => false
  end.

(** The columns [range.s.c .. range.e.c]. *)
Definition range_cols (rg : Range) : list nat :=
  seq (s_c rg) (e_c rg + 1 - s_c rg).

Definition templateHeaders_of (sheet : WorkSheet) (rg : Range) : list string :=
  map (fun col => header_text (cells sheet !! (0, col))) (range_cols rg).

(** The inner loop of the scan: does [row] hold a value in some column of
    the range? *)
Definition row_hasData (sheet : WorkSheet) (rg : Range) (row : nat) : bool :=
  existsb (fun col => has_value (cells sheet !! (row, col))) (range_cols rg).

(** The outer loop of the scan over the rows [1 .. range.e.r]. *)
Definition startRow_of (sheet : WorkSheet) (rg : Range) : nat :=
  fold_left (fun startRow row =>
               if row_hasData sheet rg row then row + 1 else startRow)
    (seq 1 (e_r rg)) 1.

(** The loop over [Object.entries(mapping)], left at the first entry that
    names the template column and whose source column the record has. *)
Fixpoint find_alias (entries : Mapping) (csvRow : JSObject)
    (templateHeader : string) : string :=
  match entries with
  | [] => EmptyString
  | (csvCol, excelCol) :: entries' =>
      if existsb (String.eqb templateHeader) (excelCols_of excelCol) then
        match obj_get csvCol csvRow with
        | Some v => v
        | None => find_alias entries' csvRow templateHeader
        end
      else find_alias entries' csvRow templateHeader
  end.

(** The value [csvValue] of a record for a template column. *)
Definition resolve (mapping : Mapping) (csvRow : JSObject)
    (templateHeader : string) : string :=
  match obj_get templateHeader csvRow with
  | Some v => v
  | None => find_alias mapping csvRow templateHeader
  end.

(** [templateHeader.toLowerCase().includes('place of supply')] *)
Definition is_place_of_supply (templateHeader : string) : bool :=
  includes (toLowerCase templateHeader) "place of supply".

(** [finalValue]: the value, cleaned in a place-of-supply column. *)
Definition final_value (templateHeader csvValue : string) : string :=
  if is_place_of_supply templateHeader
  then cleanPlaceOfSupply csvValue else csvValue.

(** The cell stored at [cellAddr] for a resolved value. *)
Definition typed_cell (templateHeader csvValue : string) : Cell :=
  if is_empty csvValue then text_cell EmptyString
  else
    let finalValue := final_value templateHeader csvValue in
    let numValue := parseFloat (remove_commas finalValue) in
    if negb (isNaN numValue) && matches_numeric finalValue
    then number_cell numValue
    else text_cell (trim finalValue).

(** The body of [templateHeaders.forEach]. *)
Definition write_cell (mapping : Mapping) (csvRow : JSObject)
    (excelRow : nat) (cs : gmap (nat * nat) Cell) (templateHeader : string)
    (colIndex : nat) : gmap (nat * nat) Cell :=
  if is_empty templateHeader then cs
  else <[(excelRow, colIndex) :=
           typed_cell templateHeader (resolve mapping csvRow templateHeader)]>
         cs.

(** The body of [data.forEach]. *)
Definition write_row (mapping : Mapping) (templateHeaders : list string)
    (startRow : nat) (cs : gmap (nat * nat) Cell) (csvRow : JSObject)
    (rowIndex : nat) : gmap (nat * nat) Cell :=
  forEach (write_cell mapping csvRow (startRow + rowIndex)) templateHeaders 0
    cs.

Definition appendDataToSheet (sheet : WorkSheet) (data : list JSObject)
    (mapping : Mapping) (sheetName : string) : WorkSheet :=
  match data with
  | [] => sheet
  | _ :: _ =>
      let range := sheet_range sheet in
      let templateHeaders := templateHeaders_of sheet range in
      let startRow := startRow_of sheet range in
      let cs :=
        forEach (write_row mapping templateHeaders startRow) data 0
          (cells sheet) in
      mkSheet
        (Some (mkRange (s_r range) (s_c range)
                 (startRow + length data - 1) (e_c range)))
        cs
  end.

(** The body of the loop of [generateGSTR1Excel] for one file. *)
Definition process_file (workbook : WorkBook) (file : CsvFileInput)
    : Result WorkBook :=
  match getSheetName (name file) with
  | None => Ok workbook
  | Some sheetName =>
      let data := file_data file in
      match data with
      | [] => Ok workbook
      | _ :: _ =>
          match Sheets workbook !! sheetName with
          | None =>
              let ws := json_to_sheet data in
              book_append_sheet
                (mkBook (SheetNames workbook)
                   (<[sheetName := ws]> (Sheets workbook)))
                ws sheetName
          | Some sheet =>
              Ok (mkBook (SheetNames workbook)
                    (<[sheetName :=
                         appendDataToSheet sheet data (mapping_for sheetName)
                           sheetName]> (Sheets workbook)))
          end
      end
  end.

(** The loop over [csvFiles]. *)
Fixpoint process_files (workbook : WorkBook) (csvFiles : list CsvFileInput)
    : Result WorkBook :=
  match csvFiles with
  | [] => Ok workbook
  | file :: csvFiles' =>
      match process_file workbook file with
      | Ok workbook' => process_files workbook' csvFiles'
      | Err msg => Err msg
      end
  end.

(** [generateGSTR1Excel] up to the workbook handed to [XLSX.write].
    [template] is the outcome of decoding the embedded template
    ([atob] then [XLSX.read]): [None] when either throws. *)
Definition generateGSTR1Excel (template : option WorkBook)
    (csvFiles : list CsvFileInput) : Result WorkBook :=
  let workbook :=
    match template with
    | Some wb => wb
    | None => book_new
    end in
  process_files workbook csvFiles.

End Merge.

(** ** Writing the workbook *)







(** ** Financial years (services/utils.ts) *)

(** What [generateFinancialYears] reads of [new Date()]: the year and the
    month, January being 0. *)
Record Today : Type := mkToday { getFullYear : Z; getMonth : nat }.

(** [n.toString()] for an integer. *)
Definition Z_toString (z : Z) : string :=
  NilZero.string_of_int (Z.to_int z).

(** [s.slice(-2)] *)
Definition slice_last2 (s : string) : string :=
  substring (String.length s - 2) 2 s.

(** [today.getMonth() < 3 ? today.getFullYear() - 1 : today.getFullYear()] *)
Definition currentFYStart (today : Today) : Z :=
  if getMonth today <? 3 then (getFullYear today - 1)%Z
  else getFullYear today.

(** The label pushed for a start year: [`${start}-${end}`]. *)
Definition fy_label (start : Z) : string :=
  Z_toString start ++ "-" ++ slice_last2 (Z_toString (start + 1)).

(** The loop, from index [i], for the [n] indices that are left. *)
Fixpoint fy_loop (fyStart : Z) (i n : nat) : list string :=
  match n with
  | 0 => []
  | S n' => fy_label (fyStart - Z.of_nat i) :: fy_loop fyStart (S i) n'
  end.

(** [generateFinancialYears(count)] for a count that is a natural
    number. *)
Definition generateFinancialYears (today : Today) (count : nat)
    : list string :=
  fy_loop (currentFYStart today) 0 count.

(** ** Uploads by month (the party workspace of the CA dashboard) *)

(** An upload as the backend lists it; the optional fields are [None] when
    the property is missing. *)
Record UploadRecord : Type := mkUpload {
  id : string;
  file_name : string;
  month : string;
  financial_year : string;
  status : string;
  storage_key : string;
  uploaded_at : string;
  gstr_sheet : option string;
  note : option string
}.

(** [Record<string, UploadRecord[]>], in property order. *)
Definition Groups : Type := list (string * list UploadRecord).

(** [groups[k]]; [None] is [undefined]. *)
Fixpoint groups_get (k : string) (groups : Groups)
    : option (list UploadRecord) :=
  match groups with
  | [] => None
  | (k', v) :: groups' =>
      if String.eqb k k' then Some v else groups_get k groups'
  end.

(** [groups[k] = v] *)
Fixpoint groups_set (k : string) (v : list UploadRecord) (groups : Groups)
    : Groups :=
  match groups with
  | [] => [(k, v)]
  | (k', v') :: groups' =>
      if String.eqb k k' then (k, v) :: groups'
      else if key_before k k' then (k, v) :: (k', v') :: groups'
      else (k', v') :: groups_set k v groups'
  end.

(** The callback of [uploads.forEach]:
    [if (!groups[u.month]) groups[u.month] = []; groups[u.month].push(u)].
    A group is an array, which is truthy, and so is every member of
    [Object.prototype]: the first statement makes the empty group when the
    month is neither a key of [groups] nor the name of such a member.  The
    second statement then finds the group; on the name of a member it
    finds the member, which has no [push], and the call throws a
    [TypeError]. *)
Definition group_upload (groups : Groups) (u : UploadRecord)
    : Result Groups :=
  let groups1 :=
    match groups_get (month u) groups with
    | Some _ => groups
    | None =>
        if inherited (month u) then groups
        else groups_set (month u) [] groups
    end in
  match groups_get (month u) groups1 with
  | Some group => Ok (groups_set (month u) (group ++ [u])%list groups1)
  | None => Err "TypeError: groups[u.month].push is not a function"
  end.

(** The loop of [groupedUploads]: an exception ends it. *)
Definition groupedUploads (uploads : list UploadRecord) : Result Groups :=
  forEach (fun st u _ =>
             match st with
             | Ok groups => group_upload groups u
             | Err msg => Err msg
             end)
    uploads 0 (Ok []).

(** [Object.keys(groupedUploads)] *)
Definition availableMonths (groups : Groups) : list string :=
  map fst groups.

(** The state update of [handleMapSheet]:
    [prev.map(u => u.id === upload.id ? { ...u, gstr_sheet: sheet } : u)] *)
Definition mapSheet_update (upload : UploadRecord) (sheet : string)
    (prev : list UploadRecord) : list UploadRecord :=
  map (fun u =>
         if String.eqb (id u) (id upload)
         then mkUpload (id u) (file_name u) (month u) (financial_year u)
                (status u) (storage_key u) (uploaded_at u) (Some sheet)
                (note u)
         else u)
      prev.

(** * Vocabulary of the properties *)

(** ** Strings *)

(** Every character of [s] passes [p]. *)
Fixpoint all_chars (p : ascii -> bool) (s : string) : bool :=
  match s with
  | EmptyString => true
  | String c s' => p c && all_chars p s'
  end.

(** The first character of [s], if any, fails [p]. *)
Definition stops_at (p : ascii -> bool) (s : string) : Prop :=
  match s with
  | EmptyString => True
  | String c _ => p c = false
  end.

Definition LF : string := String "010" EmptyString.

(** ** The value normaliser *)

(** Following the specification's words: the numeric pattern is tested on
    the string with its thousands separators stripped. *)
Definition spec_numeric (v : string) : bool :=
  matches_numeric (remove_commas v).

(** The type the specification gives to a written value: numeric when the
    value, thousands separators aside, matches the pattern, text
    otherwise. *)
Definition spec_cell_type (v : string) : CellType :=
  if spec_numeric v then TNum else TStr.

(** Following the specification's words: the prefix to strip is one or more
    digits, optional white space, a dash, optional white space. *)
Definition spec_strip_code_prefix (s : string) : string :=
  let '(d, r) := span_digits s in
  if is_empty d then s
  else
    match trimStart r with
    | String "-" r' => trimStart r'
    | _ => s
    end.

Definition spec_cleanPlaceOfSupply (value : string) : string :=
  trim (spec_strip_code_prefix (trim value)).

(** What [cleanPlaceOfSupply] does to a trimmed value: a code of digits
    followed at once by a dash goes, with the white space around the
    rest; a value without such a code stays. *)
Inductive code_stripped : string -> string -> Prop :=
| stripped_code (d rest : string) :
    d <> EmptyString -> all_chars is_digit d = true ->
    code_stripped (d ++ String "-" rest) (trim rest)
| stripped_none (s : string) :
    (forall d rest, d <> EmptyString -> all_chars is_digit d = true ->
                    s <> d ++ String "-" rest) ->
    code_stripped s s.

(** ** The classifier *)

(** The ordered keyword table of [getSheetName]. *)
Definition keywords : list (string * string) :=
  [ ("HSN", "hsn"); ("B2CL", "b2cl"); ("B2CS", "b2cs"); ("B2B", "b2b");
    ("EXP", "export"); ("EXEMP", "Nil_exempt_NonGST"); ("CDNUR", "cdnur");
    ("CDNR", "cdnr") ].

(** ** Records *)

(** Following the specification's words: the record maps the header of
    every position to the field of that position. *)
Definition maps_by_position (headers values : list string) (row : JSObject)
    : Prop :=
  forall i h, headers !! i = Some h ->
              obj_get h row = Some (nth i values EmptyString).

(** The record maps a header name other than [__proto__] to the field of
    the last position that bears the name, and has no other key. *)
Definition maps_by_last_position (headers values : list string)
    (row : JSObject) : Prop :=
  (forall i h, headers !! i = Some h ->
               h <> "__proto__" ->
               (forall j, i < j -> headers !! j <> Some h) ->
               obj_get h row = Some (nth i values EmptyString))
  /\ (forall k, obj_get k row <> None -> In k headers /\ k <> "__proto__").

(** The source columns registered for a template column, in the order of
    the mapping. *)
Definition aliases_for (mapping : Mapping) (templateHeader : string)
    : list string :=
  map fst
    (List.filter
       (fun e => existsb (String.eqb templateHeader) (excelCols_of (snd e)))
       mapping).

(** The value of the first of the given source columns that the record
    has. *)
Fixpoint first_present (cols : list string) (csvRow : JSObject)
    : option string :=
  match cols with
  | [] => None
  | col :: cols' =>
      match obj_get col csvRow with
      | Some v => Some v
      | None => first_present cols' csvRow
      end
  end.

(** ** Sheets *)

(** The append start row of a sheet. *)
Definition startRow (sheet : WorkSheet) : nat :=
  startRow_of sheet (sheet_range sheet).

(** Row [row] holds a non-empty cell in a column of the sheet's range. *)
Definition row_has_value (sheet : WorkSheet) (row : nat) : Prop :=
  exists col,
    s_c (sheet_range sheet) <= col <= e_c (sheet_range sheet)
    /\ has_value (cells sheet !! (row, col)) = true.

(** Row [r] lies below the header inside the sheet's range and holds a
    non-empty cell. *)
Definition data_row (sheet : WorkSheet) (r : nat) : Prop :=
  1 <= r <= e_r (sheet_range sheet) /\ row_has_value sheet r.

(** Every cell sits one row below the record of [data] that its value
    comes from. *)
Definition rows_from_records (data : list JSObject) (bound : nat)
    (cs : gmap (nat * nat) Cell) : Prop :=
  forall r C c, cs !! (r, C) = Some c ->
    exists R JS kv, r = R + 1 /\ R < bound /\ data !! R = Some JS
                    /\ In kv JS /\ c = text_cell (snd kv).

(** ** Workbooks *)

(** A workbook whose [Sheets] object has an entry for every name of
    [SheetNames], as every workbook made by the library has. *)
Definition sheets_listed (wb : WorkBook) : Prop :=
  forall n, Sheets wb !! n = None -> n ∉ SheetNames wb.

(** The workbook the loop over the files starts from. *)
Definition initial_workbook (template : option WorkBook) : WorkBook :=
  default book_new template.

(** The block of rows the records of a file are written to, in the
    workbook as it is when the file is processed: the category, the first
    row and the number of rows.  Record [k] goes to row [first + k]: row
    [R + 1] in [json_to_sheet], [startRow + rowIndex] in
    [appendDataToSheet]. *)
Definition file_rows (wb : WorkBook) (file : CsvFileInput)
    : option (string * nat * nat) :=
  match getSheetName (name file) with
  | None => None
  | Some cat =>
      match file_data file with
      | [] => None
      | _ :: _ =>
          Some (cat,
                match Sheets wb !! cat with
                | None => 1
                | Some sheet => startRow sheet
                end,
                length (file_data file))
      end
  end.

(** ** Sample inputs *)

(** A template sheet whose table starts in column B: the range is B1:C1,
    B1 holds the header "Invoice No" and C1 the header "Taxable Value". *)
Definition sheet_from_B : WorkSheet :=
  mkSheet (Some (mkRange 0 1 0 2))
    (<[(0, 1) := text_cell "Invoice No"]>
       {[ (0, 2) := text_cell "Taxable Value" ]}).

(** A record with a field for each of the two headers. *)
Definition invoice_row : JSObject :=
  [("Invoice No", "INV001"); ("Taxable Value", "1000")].

(** Two files of the category b2b; the last line of the first one holds
    only a separator. *)
Definition file_A : CsvFileInput :=
  mkFile "b2b_a.csv" ("X,Y" ++ LF ++ "1,2" ++ LF ++ ",").

Definition file_B : CsvFileInput :=
  mkFile "b2b_b.csv" ("X,Y" ++ LF ++ "3,4").

(** A rendering of numbers for the samples, none of which has a numeric
    header cell. *)
Definition no_toString (n : JSNumber) : string := EmptyString.

(** The sheet made of [file_A]. *)
Definition sheet_A : WorkSheet := json_to_sheet (file_data file_A).

(** The workbook made of [file_A] alone, and of [file_A] then [file_B]. *)
Definition book_A : WorkBook :=
  match process_file no_toString book_new file_A with
  | Ok wb => wb
  | Err _ => book_new
  end.

Definition book_AB : WorkBook :=
  match process_file no_toString book_A file_B with
  | Ok wb => wb
  | Err _ => book_new
  end.

(** ** Lines, fields, records and tables *)

(** A character that [parseLine] neither splits at nor drops. *)
Definition plain_char (c : ascii) : bool :=
  negb (Ascii.eqb c ",") && negb (Ascii.eqb c "034").

Definition not_quote (c : ascii) : bool := negb (Ascii.eqb c "034").

(** A character of the ASCII range, on which the case conversions of
    JavaScript change the 26 letters only. *)
Definition is_ascii (c : ascii) : bool := nat_of_ascii c <? 128.

(** A character that does not end a line. *)
Definition not_eol (c : ascii) : bool :=
  negb (Ascii.eqb c "010") && negb (Ascii.eqb c "013").

Definition CRLF : string := String "013" (String "010" EmptyString).

Definition QUOTE : string := String "034" EmptyString.

(** The key [k2] may come after the key [k1] in property order. *)
Definition key_follows (k1 k2 : string) : Prop :=
  k1 <> k2 /\ key_before k2 k1 = false.

(** The keys of the object are in property order, each one once. *)
Definition obj_ordered (o : JSObject) : Prop :=
  StronglySorted key_follows (obj_keys o).

(** Every value of the object is free of surrounding white space. *)
Definition values_trimmed (o : JSObject) : Prop :=
  forall kv, In kv o -> trim (snd kv) = snd kv.

(** The header [hdr] has each key once, and every value that [D] lists for
    a row and a key is the text cell of that row under the column of the
    key. *)
Definition values_under_keys (D : nat -> string -> string -> Prop)
    (st : list string * gmap (nat * nat) Cell) : Prop :=
  List.NoDup (fst st)
  /\ forall r k v, D r k v ->
       exists C, fst st !! C = Some k
                 /\ snd st !! (r, C) = Some (text_cell v).

(** The values of the records before record [bound]. *)
Definition values_before (data : list JSObject) (bound : nat)
    (r : nat) (k v : string) : Prop :=
  exists R JS, R < bound /\ r = R + 1 /\ data !! R = Some JS /\ In (k, v) JS.

(** The sheet of the category of a file after the file is processed, from
    the sheet before it, if any. *)
Definition merged_sheet (Number_toString : JSNumber -> string)
    (file : CsvFileInput) (cat : string) (old : option WorkSheet)
    : option WorkSheet :=
  match file_data file with
  | [] => old
  | _ :: _ =>
      Some match old with
           | None => json_to_sheet (file_data file)
           | Some sheet =>
               appendDataToSheet Number_toString sheet (file_data file)
                 (mapping_for cat) cat
           end
  end.

(** The sheet name that processing a file adds to the workbook: its
    category, when the file has records and the category has no sheet. *)
Definition added_names (wb : WorkBook) (file : CsvFileInput) : list string :=
  match getSheetName (name file), file_data file with
  | Some cat, _ :: _ =>
      match Sheets wb !! cat with
      | None => [cat]
      | Some _ => []
      end
  | _, _ => []
  end.

(** The two decimal digits of a number below 100. *)
Definition two_digits (n : nat) : string :=
  String (ascii_of_nat (48 + n / 10))
    (String (ascii_of_nat (48 + n mod 10)) EmptyString).

(** The label of a start year has seven characters: the year, a dash and
    the last two digits of the next year. *)
Definition label_ok (y : Z) : bool :=
  String.eqb (fy_label y)
    (Z_toString y ++ "-" ++ two_digits (Z.to_nat ((y + 1) mod 100)))
  && (String.length (fy_label y) =? 7).

(** [f] holds of the [n] integers from [lo] on. *)
Fixpoint holds_from (f : Z -> bool) (lo : Z) (n : nat) : bool :=
  match n with
  | 0 => true
  | S n' => f lo && holds_from f (lo + 1)%Z n'
  end.

(** The uploads of month [m], in the order of the list. *)
Definition uploads_of (m : string) (uploads : list UploadRecord)
    : list UploadRecord :=
  List.filter (fun u => String.eqb (month u) m) uploads.

(** The group of a month with uploads; no group otherwise. *)
Definition group_of (m : string) (uploads : list UploadRecord)
    : option (list UploadRecord) :=
  match uploads_of m uploads with
  | [] => None
  | l => Some l
  end.

(** The keys of the groups, as an object of strings. *)
Definition group_keys (groups : Groups) : JSObject :=
  map (fun kv => (fst kv, EmptyString)) groups.

(** What [group_upload] makes of the groups when it does not throw. *)
Definition group_step (groups : Groups) (u : UploadRecord) : Groups :=
  let groups1 :=
    match groups_get (month u) groups with
    | None => groups_set (month u) [] groups
    | Some _ => groups
    end in
  match groups_get (month u) groups1 with
  | Some group => groups_set (month u) (group ++ [u])%list groups1
  | None => groups1
  end.




(** ** Further sample inputs *)

(** A template whose sheet b2b has the range B1:B1, with the header "X" in
    B1, and two files for it. *)
Definition sheet_B1 : WorkSheet :=
  mkSheet (Some (mkRange 0 1 0 1)) {[ (0, 1) := text_cell "X" ]}.

Definition template_B1 : WorkBook := mkBook ["b2b"] {[ "b2b" := sheet_B1 ]}.

Definition file_111 : CsvFileInput := mkFile "b2b_1.csv" ("X" ++ LF ++ "111").

Definition file_222 : CsvFileInput := mkFile "b2b_2.csv" ("X" ++ LF ++ "222").


(** A file of the category hsn. *)
Definition file_H : CsvFileInput :=
  mkFile "hsn_summary.csv" ("HSN,Qty" ++ LF ++ "1001,5").

(** A file that holds a header line only. *)
Definition file_header_only : CsvFileInput := mkFile "b2b_c.csv" "X,Y".

(** Two sample uploads of April and one of May. *)
Definition upload_1 : UploadRecord :=
  mkUpload "1" "b2b_a.csv" "April" "2024-25" "Received" "k1" "t1" None None.

Definition upload_2 : UploadRecord :=
  mkUpload "2" "hsn.csv" "May" "2024-25" "Received" "k2" "t2" None None.

Definition upload_3 : UploadRecord :=
  mkUpload "3" "b2b_b.csv" "April" "2024-25" "Received" "k3" "t3" None None.

(** An upload whose month is the name of a member of [Object.prototype]. *)
Definition upload_odd : UploadRecord :=
  mkUpload "4" "b2b_c.csv" "constructor" "2024-25" "Received" "k4" "t4" None
    None.

(** * Properties *)

(** ** Strings *)

Lemma span_digits_split s :
  s = fst (span_digits s) ++ snd (span_digits s)
  /\ all_chars is_digit (fst (span_digits s)) = true
  /\ stops_at is_digit (snd (span_digits s)).
Proof.
  induction s as [|c s IH]; simpl.
  - auto.
  - destruct (is_digit c) eqn:Hc.
    + destruct (span_digits s) as [d r]; simpl in *.
      destruct IH as (-> & Hd & Hr). rewrite Hc. auto.
    + simpl. auto.
Qed.

Lemma span_digits_app d r :
  all_chars is_digit d = true -> stops_at is_digit r ->
  span_digits (d ++ r) = (d, r).
Proof.
  induction d as [|c d IH]; simpl; intros Hd Hr.
  - destruct r as [|c r]; simpl in *; [reflexivity | now rewrite Hr].
  - apply andb_true_iff in Hd as [Hc Hd]. rewrite Hc, IH; auto.
Qed.

Lemma trimStart_idem s : trimStart (trimStart s) = trimStart s.
Proof.
  induction s as [|c s IH]; simpl; [reflexivity|].
  destruct (is_space c) eqn:Hc; [exact IH | simpl; now rewrite Hc].
Qed.

Lemma trimStart_stops s : stops_at is_space (trimStart s).
Proof.
  induction s as [|c s IH]; simpl; [exact I|].
  destruct (is_space c) eqn:Hc; [exact IH | exact Hc].
Qed.

Lemma trimStart_id s : stops_at is_space s -> trimStart s = s.
Proof. destruct s as [|c s]; simpl; [reflexivity | now intros ->]. Qed.

Lemma trimEnd_idem s : trimEnd (trimEnd s) = trimEnd s.
Proof.
  induction s as [|c s IH]; simpl; [reflexivity|].
  destruct (is_space c && is_empty (trimEnd s)) eqn:Hc; [reflexivity|].
  simpl. now rewrite IH, Hc.
Qed.

Lemma trimEnd_stops s : stops_at is_space s -> stops_at is_space (trimEnd s).
Proof.
  destruct s as [|c s]; simpl; [auto|]. intros Hc. now rewrite Hc.
Qed.

Lemma trim_idem s : trim (trim s) = trim s.
Proof.
  unfold trim.
  rewrite (trimStart_id (trimEnd (trimStart s))).
  - apply trimEnd_idem.
  - apply trimEnd_stops, trimStart_stops.
Qed.

Lemma trim_trimStart s : trim (trimStart s) = trim s.
Proof. unfold trim. now rewrite trimStart_idem. Qed.

Lemma digit_not_space c : is_digit c = true -> is_space c = false.
Proof.
  unfold is_digit, is_space. intros H.
  apply andb_true_iff in H as [H1 H2].
  apply Nat.leb_le in H1, H2.
  apply orb_false_iff; split.
  - apply andb_false_iff. right. apply Nat.leb_gt. lia.
  - apply Nat.eqb_neq. lia.
Qed.

Lemma digit_not_comma c : is_digit c = true -> Ascii.eqb c "," = false.
Proof.
  intros H. destruct (Ascii.eqb_spec c ","); [subst; discriminate | reflexivity].
Qed.

Lemma remove_commas_digits d r :
  all_chars is_digit d = true ->
  remove_commas (d ++ r) = d ++ remove_commas r.
Proof.
  induction d as [|c d IH]; simpl; intros Hd; [reflexivity|].
  apply andb_true_iff in Hd as [Hc Hd].
  now rewrite (digit_not_comma _ Hc), IH.
Qed.

Lemma is_empty_true s : is_empty s = true -> s = EmptyString.
Proof. now destruct s. Qed.

Lemma string_app_cons c s1 s2 : String c s1 ++ s2 = String c (s1 ++ s2).
Proof. reflexivity. Qed.

Lemma string_app_nil_r s : s ++ EmptyString = s.
Proof.
  induction s as [|c s IH]; [reflexivity|].
  now rewrite string_app_cons, IH.
Qed.

(** ** The numeric pattern and [parseFloat] *)

(** A string accepted by the pattern is an optional dash, digits, and
    optionally a point and digits. *)
Lemma matches_numeric_shape s :
  matches_numeric s = true ->
  exists (neg dot : bool) (ip fp : string),
    s = (if neg then "-" else "") ++ ip ++ (if dot then "." else "") ++ fp
    /\ ip <> EmptyString
    /\ all_chars is_digit ip = true /\ all_chars is_digit fp = true
    /\ (dot = false -> fp = EmptyString).
Proof.
  unfold matches_numeric. intros H.
  set (s1 := match s with String "-" r => r | _ => s end) in *.
  assert (Hs : exists neg : bool, s = (if neg then "-" else "") ++ s1).
  { subst s1. destruct s as [|c r]; [exists false; reflexivity|].
    destruct (Ascii.eqb_spec c "-") as [->|Hc].
    - exists true. reflexivity.
    - exists false.
      destruct c as [[] [] [] [] [] [] [] []]; try reflexivity; now elim Hc. }
  destruct Hs as [neg Hs].
  destruct (span_digits_split s1) as (H1 & Hip & Hstop).
  destruct (span_digits s1) as [ip r1]; simpl in *.
  set (r2 := match r1 with String "." r => r | _ => r1 end) in *.
  assert (Hr : exists dot : bool, r1 = (if dot then "." else "") ++ r2).
  { subst r2. destruct r1 as [|c r]; [exists false; reflexivity|].
    destruct (Ascii.eqb_spec c ".") as [->|Hc].
    - exists true. reflexivity.
    - exists false.
      destruct c as [[] [] [] [] [] [] [] []]; try reflexivity; now elim Hc. }
  destruct Hr as [dot Hr].
  destruct (span_digits_split r2) as (H2 & Hfp & _).
  destruct (span_digits r2) as [fp r3]; simpl in *.
  apply andb_true_iff in H as [Hne He].
  apply is_empty_true in He. subst r3.
  exists neg, dot, ip, fp. repeat split; auto.
  - rewrite Hs, H1, Hr, H2.
    now destruct neg, dot; simpl; rewrite ?string_app_nil_r.
  - intros ->. discriminate.
  - intros ->. simpl in Hr. rewrite Hr, H2 in Hstop.
    destruct fp as [|c fp]; [reflexivity|]. simpl in Hstop, Hfp.
    apply andb_true_iff in Hfp as [Hc _]. congruence.
Qed.

Lemma remove_commas_all_digits d :
  all_chars is_digit d = true -> remove_commas d = d.
Proof.
  intros H. rewrite <- (string_app_nil_r d) at 1.
  rewrite remove_commas_digits by assumption. apply string_app_nil_r.
Qed.

(** An accepted string holds no comma: stripping the commas before the
    parse changes nothing for it. *)
Lemma matches_numeric_no_comma s :
  matches_numeric s = true -> remove_commas s = s.
Proof.
  intros H.
  destruct (matches_numeric_shape s H)
    as (neg & dot & ip & fp & -> & _ & Hip & Hfp & _).
  assert (Hrest : remove_commas (ip ++ (if dot then "." else "") ++ fp)
                  = ip ++ (if dot then "." else "") ++ fp).
  { rewrite remove_commas_digits by assumption. f_equal.
    destruct dot.
    - change (String "." (remove_commas fp) = String "." fp).
      now rewrite remove_commas_all_digits.
    - now apply remove_commas_all_digits. }
  destruct neg.
  - change (String "-" (remove_commas (ip ++ (if dot then "." else "") ++ fp))
            = String "-" (ip ++ (if dot then "." else "") ++ fp)).
    now rewrite Hrest.
  - exact Hrest.
Qed.

Lemma parseFloat_digit_start c r :
  is_digit c = true -> isNaN (parseFloat (String c r)) = false.
Proof.
  intros Hc. unfold parseFloat.
  destruct c as [[] [] [] [] [] [] [] []]; try discriminate Hc; simpl;
    destruct (span_digits r) as [d r1];
    (destruct r1 as [|c1 r1]; [reflexivity|]);
    destruct (Ascii.eqb_spec c1 ".") as [->|Hne];
    try (destruct (span_digits r1); reflexivity);
    destruct c1 as [[] [] [] [] [] [] [] []]; try reflexivity; now elim Hne.
Qed.

Lemma parseFloat_neg_digit_start c r :
  is_digit c = true -> isNaN (parseFloat (String "-" (String c r))) = false.
Proof.
  intros Hc. unfold parseFloat.
  destruct c as [[] [] [] [] [] [] [] []]; try discriminate Hc; simpl;
    destruct (span_digits r) as [d r1];
    (destruct r1 as [|c1 r1]; [reflexivity|]);
    destruct (Ascii.eqb_spec c1 ".") as [->|Hne];
    try (destruct (span_digits r1); reflexivity);
    destruct c1 as [[] [] [] [] [] [] [] []]; try reflexivity; now elim Hne.
Qed.

(** The parse of an accepted string never gives NaN: the first conjunct of
    the test in [typed_cell] follows from the second. *)
Lemma matches_numeric_not_NaN s :
  matches_numeric s = true -> isNaN (parseFloat s) = false.
Proof.
  intros H.
  destruct (matches_numeric_shape s H)
    as (neg & dot & ip & fp & -> & Hne & Hip & _).
  destruct ip as [|c ip]; [now elim Hne|].
  simpl in Hip. apply andb_true_iff in Hip as [Hc _].
  destruct neg; simpl.
  - now apply parseFloat_neg_digit_start.
  - now apply parseFloat_digit_start.
Qed.

Lemma remove_commas_length s :
  String.length (remove_commas s) <= String.length s.
Proof.
  induction s as [|c s IH]; simpl; [lia|].
  destruct (Ascii.eqb c ","); simpl; lia.
Qed.

Lemma includes_comma_removed s :
  remove_commas s = s -> includes s "," = false.
Proof.
  induction s as [|c s IH]; [reflexivity|].
  change (remove_commas (String c s))
    with (if Ascii.eqb c "," then remove_commas s
          else String c (remove_commas s)).
  change (includes (String c s) ",")
    with (String.prefix "," (String c s) || includes s ",").
  destruct (Ascii.eqb_spec c ",") as [->|Hc]; intros H.
  - pose proof (remove_commas_length s) as Hlen.
    rewrite H in Hlen. simpl in Hlen. lia.
  - injection H as H. rewrite (IH H), orb_false_r.
    unfold String.prefix.
    destruct (ascii_dec "," c) as [E|_]; [now elim Hc | reflexivity].
Qed.

(** ** The value normaliser *)

Lemma typed_cell_empty h : typed_cell h EmptyString = text_cell EmptyString.
Proof. reflexivity. Qed.

(** For a non-empty value the stored cell is decided by the pattern alone,
    tested on the final value with its commas in place. *)
Lemma typed_cell_cases h v :
  is_empty v = false ->
  typed_cell h v =
    if matches_numeric (final_value h v)
    then number_cell (parseFloat (final_value h v))
    else text_cell (trim (final_value h v)).
Proof.
  intros Hv. unfold typed_cell. rewrite Hv.
  destruct (matches_numeric (final_value h v)) eqn:Hm.
  - rewrite (matches_numeric_no_comma _ Hm), (matches_numeric_not_NaN _ Hm).
    reflexivity.
  - now rewrite andb_false_r.
Qed.

Lemma typed_cell_comma_text h v :
  is_empty v = false -> includes (final_value h v) "," = true ->
  typed_cell h v = text_cell (trim (final_value h v)).
Proof.
  intros Hv Hc. rewrite typed_cell_cases by assumption.
  destruct (matches_numeric (final_value h v)) eqn:Hm; [|reflexivity].
  apply matches_numeric_no_comma, includes_comma_removed in Hm. congruence.
Qed.

(** C1 (code at the failing input): the text "1,234.50" of a
    taxable-value column is stored as the text cell "1,234.50", not as the
    number 1234.5, although its comma-stripped form parses to 1234.5 and
    matches the pattern; "22AAAAA0000A1Z5" is stored as text. *)
Theorem C1_thousands_text_cell :
  typed_cell "Taxable Value" "1,234.50" = text_cell "1,234.50"
  /\ spec_numeric "1,234.50" = true
  /\ parseFloat (remove_commas "1,234.50") = Finite (2469 # 2)
  /\ typed_cell "Taxable Value" "1234.50" = number_cell (Finite (2469 # 2))
  /\ typed_cell "GSTIN/UIN" "22AAAAA0000A1Z5" = text_cell "22AAAAA0000A1Z5".
Proof. repeat split; vm_compute; reflexivity. Qed.

(** ** Place of supply *)

Lemma strip_code_prefix_code d rest :
  d <> EmptyString -> all_chars is_digit d = true ->
  strip_code_prefix (d ++ String "-" rest) = trimStart rest.
Proof.
  intros Hne Hd. unfold strip_code_prefix.
  rewrite span_digits_app by (auto; reflexivity).
  destruct d; [now elim Hne | reflexivity].
Qed.

Lemma strip_code_prefix_none s :
  (forall d rest, d <> EmptyString -> all_chars is_digit d = true ->
                  s <> d ++ String "-" rest) ->
  strip_code_prefix s = s.
Proof.
  intros Hno. unfold strip_code_prefix.
  destruct (span_digits_split s) as (Hs & Hd & _).
  destruct (span_digits s) as [d r]; simpl in *.
  destruct d as [|c d]; [reflexivity|]. simpl is_empty. cbv iota.
  destruct r as [|c' r]; [reflexivity|].
  destruct (Ascii.eqb_spec c' "-") as [->|Hc].
  - exfalso. apply (Hno (String c d) r); [discriminate | exact Hd | exact Hs].
  - destruct c' as [[] [] [] [] [] [] [] []]; try reflexivity; now elim Hc.
Qed.

Lemma code_prefix_dec s :
  (exists d rest, d <> EmptyString /\ all_chars is_digit d = true
                  /\ s = d ++ String "-" rest)
  \/ (forall d rest, d <> EmptyString -> all_chars is_digit d = true ->
                     s <> d ++ String "-" rest).
Proof.
  destruct (span_digits_split s) as (Hs & Hd & _).
  destruct (span_digits s) as [d r] eqn:Hsp; simpl in *.
  assert (Huniq : forall d' rest, all_chars is_digit d' = true ->
                    s = d' ++ String "-" rest -> d = d' /\ r = String "-" rest).
  { intros d' rest Hd' E. rewrite E, span_digits_app in Hsp by (auto; reflexivity).
    now injection Hsp as <- <-. }
  destruct d as [|c d].
  - right. intros d' rest Hne Hd' E.
    destruct (Huniq d' rest Hd' E) as [<- _]. now elim Hne.
  - destruct r as [|c' r].
    + right. intros d' rest _ Hd' E.
      destruct (Huniq d' rest Hd' E) as [_ E']. discriminate.
    + destruct (Ascii.eqb_spec c' "-") as [->|Hc].
      * left. exists (String c d), r. repeat split; auto.
      * right. intros d' rest _ Hd' E.
        destruct (Huniq d' rest Hd' E) as [_ E']. congruence.
Qed.

(** C2 (amended): in a column whose header contains "place of supply" the
    value is cleaned before it is typed.  For every value, the trimmed
    value either begins with one or more digits followed at once by a dash,
    and then the result is what follows the dash, trimmed; or it has no
    such prefix and the result is the trimmed value itself.  "07-Delhi"
    gives "Delhi" and "Delhi" stays "Delhi". *)
Theorem C2_cleanPlaceOfSupply_strips_code (templateHeader value : string) :
  (is_place_of_supply templateHeader = true ->
   final_value templateHeader value = cleanPlaceOfSupply value)
  /\ code_stripped (trim value) (cleanPlaceOfSupply value)
  /\ cleanPlaceOfSupply "07-Delhi" = "Delhi"
  /\ cleanPlaceOfSupply "Delhi" = "Delhi".
Proof.
  split; [unfold final_value; now intros ->|].
  split; [|split; reflexivity].
  unfold cleanPlaceOfSupply.
  destruct (code_prefix_dec (trim value)) as [(d & rest & Hne & Hd & E)|Hno].
  - rewrite E, strip_code_prefix_code, trim_trimStart by assumption.
    now constructor.
  - rewrite strip_code_prefix_none, trim_idem by assumption.
    now constructor.
Qed.

(** C2 (counterexample): the trimmed value "07 - Delhi" begins with digits,
    white space, a dash and white space; the claim makes it "Delhi", the
    code leaves it as it is. *)
Lemma C2_space_before_dash_kept :
  spec_cleanPlaceOfSupply "07 - Delhi" = "Delhi"
  /\ cleanPlaceOfSupply "07 - Delhi" = "07 - Delhi".
Proof. split; reflexivity. Qed.

(** ** Records and the parser *)

Lemma obj_get_set_eq k v o : obj_get k (obj_set k v o) = Some v.
Proof.
  induction o as [|[k' v'] o IH]; simpl.
  - now rewrite String.eqb_refl.
  - destruct (String.eqb k k') eqn:E; simpl.
    + now rewrite String.eqb_refl.
    + destruct (key_before k k'); simpl.
      * now rewrite String.eqb_refl.
      * now rewrite E.
Qed.

Lemma obj_get_set_ne k k' v o :
  k <> k' -> obj_get k' (obj_set k v o) = obj_get k' o.
Proof.
  intros Hne.
  assert (Hkk : String.eqb k' k = false) by (apply String.eqb_neq; congruence).
  induction o as [|[k1 v1] o IH]; simpl.
  - now rewrite Hkk.
  - destruct (String.eqb_spec k k1) as [<-|Hk1]; simpl.
    + now rewrite Hkk.
    + destruct (key_before k k1); simpl.
      * now rewrite Hkk.
      * now rewrite IH.
Qed.

Section BuildRow.

Variable values : list string.

Lemma fields_absent headers : forall i0 row k,
  ~ In k headers \/ k = "__proto__" ->
  obj_get k (forEach (set_field values) headers i0 row) = obj_get k row.
Proof.
  induction headers as [|h headers IH]; intros i0 row k Hk; [reflexivity|].
  simpl. rewrite IH by (destruct Hk as [Hk|Hk]; [left | now right];
                        intros Hin; apply Hk; now right).
  unfold set_field. destruct (String.eqb_spec h "__proto__") as [Hh|Hh];
    [reflexivity|].
  apply obj_get_set_ne. intros ->.
  destruct Hk as [Hk|Hk]; [apply Hk; now left | contradiction].
Qed.

Lemma fields_last headers : forall i0 row i h,
  headers !! i = Some h ->
  h <> "__proto__" ->
  (forall j, i < j -> headers !! j <> Some h) ->
  obj_get h (forEach (set_field values) headers i0 row)
  = Some (nth (i0 + i) values EmptyString).
Proof.
  induction headers as [|h0 headers IH]; intros i0 row i h Hi Hh Hlast;
    [discriminate|].
  simpl. destruct i as [|i]; simpl in Hi.
  - injection Hi as ->. rewrite fields_absent.
    + unfold set_field.
      destruct (String.eqb_spec h "__proto__") as [E|_]; [contradiction|].
      now rewrite obj_get_set_eq, Nat.add_0_r.
    + left. intros Hin.
      apply list_elem_of_In, list_elem_of_lookup in Hin as [j Hj].
      apply (Hlast (S j)); [lia | exact Hj].
  - replace (i0 + S i) with (S i0 + i) by lia. apply IH; [exact Hi | exact Hh|].
    intros j Hj. apply (Hlast (S j)). lia.
Qed.

Lemma build_row_last headers :
  maps_by_last_position headers values (build_row headers values).
Proof.
  unfold maps_by_last_position, build_row. split.
  - intros i h Hi Hh Hlast.
    exact (fields_last headers 0 [] i h Hi Hh Hlast).
  - intros k Hk. split.
    + destruct (in_dec string_dec k headers) as [Hin|Hnot]; [exact Hin|].
      elim Hk. exact (fields_absent headers 0 [] k (or_introl Hnot)).
    + intros E. elim Hk. exact (fields_absent headers 0 [] k (or_intror E)).
Qed.

End BuildRow.

Lemma parseLine_loop_trimmed line : forall result current inQuotes,
  (forall f, In f result -> trim f = f) ->
  forall f, In f (parseLine_loop line result current inQuotes) -> trim f = f.
Proof.
  induction line as [|c line IH]; intros result current inQuotes Hres f Hf.
  - simpl in Hf. apply in_app_or in Hf as [Hf|[<-|[]]]; [auto|].
    apply trim_idem.
  - simpl in Hf.
    destruct (Ascii.eqb c "034"); [exact (IH _ _ _ Hres f Hf)|].
    destruct (Ascii.eqb c "," && negb inQuotes);
      [|exact (IH _ _ _ Hres f Hf)].
    refine (IH _ _ _ _ f Hf).
    intros g Hg. apply in_app_or in Hg as [Hg|[<-|[]]]; [auto|].
    apply trim_idem.
Qed.

Lemma parseLine_trimmed line f : In f (parseLine line) -> trim f = f.
Proof. apply parseLine_loop_trimmed. intros g []. Qed.

(** C7 (amended): the lines are those of the text with the white space
    around it removed.  With at most one line there is no record.
    Otherwise the first line gives the headers, the blank lines after it
    are skipped, and every other line gives one record, in order; a record
    maps each header name to the trimmed field at the last position bearing
    that name, the empty string when the line has no field there, and has
    no key besides the headers.  The header name [__proto__] is the one
    exception: it gives no key. *)
Theorem C7_parseCSV_records (text : string) :
  let lines := split_lines (trim text) in
  let headers := parseLine (hd EmptyString lines) in
  (length lines <= 1 -> parseCSV text = [])
  /\ (1 < length lines ->
      parseCSV text
      = map (fun line => build_row headers (parseLine line))
          (List.filter not_blank (tl lines)))
  /\ (forall line,
        maps_by_last_position headers (parseLine line)
          (build_row headers (parseLine line))
        /\ (forall f, In f (parseLine line) -> trim f = f)
        /\ (forall i, length (parseLine line) <= i ->
                      nth i (parseLine line) EmptyString = EmptyString)).
Proof.
  intros lines headers. unfold parseCSV. fold lines. fold headers.
  split; [|split].
  - intros H. apply Nat.leb_le in H. now rewrite H.
  - intros H. apply Nat.leb_gt in H. now rewrite H.
  - intros line. split; [apply build_row_last|].
    split; [apply parseLine_trimmed|].
    intros i Hi. now apply nth_overflow.
Qed.

(** C7 (counterexample): with the header line "A,A" and the line "1,2" the
    record maps the header of position 0 to "2", the field of
    position 1. *)
Lemma C7_duplicate_header_last_wins :
  parseCSV ("A,A" ++ LF ++ "1,2") = [[("A", "2")]]
  /\ ~ maps_by_position (parseLine "A,A") (parseLine "1,2") [("A", "2")].
Proof.
  split; [reflexivity|].
  intros H. specialize (H 0 "A" eq_refl). discriminate H.
Qed.

(** A header named [__proto__] gives the records no key: the assignment
    goes to the inherited setter. *)
Lemma parseCSV_proto_header :
  parseCSV ("__proto__,A" ++ LF ++ "1,2") = [[("A", "2")]].
Proof. reflexivity. Qed.

(** ** The write loops of [appendDataToSheet] *)

Section WriteLoops.

Variable mapping : Mapping.

(** A cell of another row, of a column outside the headers, or of a column
    whose header is blank, is not touched by the loop over the headers. *)
Lemma write_cells_other csvRow excelRow hs : forall i0 cs r c,
  (r <> excelRow \/ c < i0 \/ i0 + length hs <= c
   \/ exists h, hs !! (c - i0) = Some h /\ is_empty h = true) ->
  forEach (write_cell mapping csvRow excelRow) hs i0 cs !! (r, c)
  = cs !! (r, c).
Proof.
  induction hs as [|h hs IH]; intros i0 cs r c Hrc; [reflexivity|].
  simpl forEach. rewrite IH.
  - unfold write_cell. destruct (is_empty h) eqn:Hh; [reflexivity|].
    apply lookup_insert_ne. intros [= <- <-].
    destruct Hrc as [Hr|[Hc|[Hc|(h' & Hl & He)]]];
      [congruence | lia | simpl in Hc; lia |].
    rewrite Nat.sub_diag in Hl. simpl in Hl. congruence.
  - destruct Hrc as [Hr|[Hc|[Hc|(h' & Hl & He)]]].
    + now left.
    + right. left. lia.
    + simpl in Hc. right. right. left. lia.
    + destruct (decide (c <= i0)) as [Hle|Hgt]; [right; left; lia|].
      right. right. right. exists h'. split; [|exact He].
      replace (c - i0) with (S (c - S i0)) in Hl by lia. exact Hl.
Qed.

(** The cell of a column with a non-blank header holds the typed cell of
    the value resolved for that header. *)
Lemma write_cells_written csvRow excelRow hs : forall i0 cs j h,
  hs !! j = Some h -> is_empty h = false ->
  forEach (write_cell mapping csvRow excelRow) hs i0 cs !! (excelRow, i0 + j)
  = Some (typed_cell h (resolve mapping csvRow h)).
Proof.
  induction hs as [|h0 hs IH]; intros i0 cs j h Hj Hh; [discriminate|].
  simpl forEach. destruct j as [|j]; simpl in Hj.
  - injection Hj as ->. rewrite write_cells_other by (right; left; lia).
    unfold write_cell. rewrite Hh, Nat.add_0_r. apply lookup_insert_eq.
  - replace (i0 + S j) with (S i0 + j) by lia. now apply IH.
Qed.

Variable templateHeaders : list string.
Variable startRow : nat.

(** Rows outside the block the records fill are not touched. *)
Lemma write_rows_other data : forall k0 cs r c,
  (r < startRow + k0 \/ startRow + k0 + length data <= r
   \/ length templateHeaders <= c
   \/ exists h, templateHeaders !! c = Some h /\ is_empty h = true) ->
  forEach (write_row mapping templateHeaders startRow) data k0 cs !! (r, c)
  = cs !! (r, c).
Proof.
  induction data as [|csvRow data IH]; intros k0 cs r c Hrc; [reflexivity|].
  simpl forEach. rewrite IH.
  - unfold write_row. apply write_cells_other.
    destruct Hrc as [Hr|[Hr|[Hc|(h & Hl & He)]]].
    + left. lia.
    + left. simpl in Hr. lia.
    + right. right. left. lia.
    + right. right. right. exists h. now rewrite Nat.sub_0_r.
  - destruct Hrc as [Hr|[Hr|[Hc|Hc]]].
    + left. lia.
    + right. left. simpl in Hr. lia.
    + now right; right; left.
    + now right; right; right.
Qed.

(** Record [k] fills row [startRow + k]. *)
Lemma write_rows_written data : forall k0 cs k csvRow i h,
  data !! k = Some csvRow ->
  templateHeaders !! i = Some h -> is_empty h = false ->
  forEach (write_row mapping templateHeaders startRow) data k0 cs
    !! (startRow + (k0 + k), i)
  = Some (typed_cell h (resolve mapping csvRow h)).
Proof.
  induction data as [|row0 data IH]; intros k0 cs k csvRow i h Hk Hi Hh;
    [discriminate|].
  simpl forEach. destruct k as [|k]; simpl in Hk.
  - injection Hk as ->. rewrite write_rows_other by (left; lia).
    unfold write_row. rewrite Nat.add_0_r.
    now apply (write_cells_written csvRow (startRow + k0) templateHeaders 0
                 cs i h).
  - replace (k0 + S k) with (S k0 + k) by lia. now apply IH.
Qed.

End WriteLoops.

(** ** The scan for the first free row *)

Section Scan.

Variable hasData : nat -> bool.

Lemma scan_rows n : forall a acc,
  acc <= a ->
  let F :=
    fold_left
      (fun startRow row => if hasData row then row + 1 else startRow)
      (seq a n) acc in
  acc <= F /\ F <= a + n
  /\ (forall r, a <= r < a + n -> hasData r = true -> r < F)
  /\ (F = acc \/ (a < F /\ hasData (F - 1) = true)).
Proof.
  induction n as [|n IH]; intros a acc Hacc; simpl.
  - repeat split; auto; lia.
  - set (acc' := if hasData a then a + 1 else acc).
    assert (Hacc' : acc' <= S a) by (subst acc'; destruct (hasData a); lia).
    destruct (IH (S a) acc' Hacc') as (H1 & H2 & H3 & H4).
    assert (Hge : acc <= acc') by (subst acc'; destruct (hasData a); lia).
    repeat split.
    + lia.
    + lia.
    + intros r Hr Hd. destruct (decide (r = a)) as [->|Hne].
      * subst acc'. rewrite Hd in H1 |- *. lia.
      * apply H3; [lia | exact Hd].
    + destruct H4 as [H4|[H4 H5]].
      * subst acc'. destruct (hasData a) eqn:Hd; [|now left].
        right. rewrite H4. split; [lia|].
        now replace (a + 1 - 1) with a by lia.
      * right. split; [lia | exact H5].
Qed.

End Scan.

(** ** Resolution of a template column *)

Lemma find_alias_first mapping csvRow h :
  find_alias mapping csvRow h
  = default EmptyString (first_present (aliases_for mapping h) csvRow).
Proof.
  unfold aliases_for.
  induction mapping as [|[csvCol excelCol] mapping IH]; [reflexivity|].
  simpl.
  destruct (existsb (String.eqb h) (excelCols_of excelCol)) eqn:He.
  - simpl. destruct (obj_get csvCol csvRow); [reflexivity | exact IH].
  - exact IH.
Qed.

(** The three cases of the resolution: the field named like the template
    column; else the first registered source column the record has; else
    the empty string. *)
Lemma resolve_cases mapping csvRow h :
  resolve mapping csvRow h =
    match obj_get h csvRow with
    | Some v => v
    | None =>
        match first_present (aliases_for mapping h) csvRow with
        | Some v => v
        | None => EmptyString
        end
    end.
Proof.
  unfold resolve. destruct (obj_get h csvRow); [reflexivity|].
  rewrite find_alias_first.
  now destruct (first_present (aliases_for mapping h) csvRow).
Qed.

(** ** The scan, on a sheet *)

Lemma row_hasData_iff sheet row :
  row_hasData sheet (sheet_range sheet) row = true <-> row_has_value sheet row.
Proof.
  unfold row_hasData, row_has_value, range_cols.
  rewrite existsb_exists. split.
  - intros (col & Hin & Hv). exists col. split; [|exact Hv].
    apply in_seq in Hin. lia.
  - intros (col & Hc & Hv). exists col. split; [|exact Hv].
    apply in_seq. lia.
Qed.

Lemma startRow_scan sheet :
  1 <= startRow sheet
  /\ startRow sheet <= e_r (sheet_range sheet) + 1
  /\ (forall r, 1 <= r <= e_r (sheet_range sheet) ->
                row_has_value sheet r -> r < startRow sheet)
  /\ (startRow sheet = 1
      \/ (2 <= startRow sheet /\ row_has_value sheet (startRow sheet - 1))).
Proof.
  unfold startRow, startRow_of.
  destruct (scan_rows (row_hasData sheet (sheet_range sheet))
              (e_r (sheet_range sheet)) 1 1 (le_n 1)) as (H1 & H2 & H3 & H4).
  repeat split.
  - exact H1.
  - lia.
  - intros r Hr Hv. apply H3; [lia|]. now apply row_hasData_iff.
  - destruct H4 as [H4|[H4 H5]]; [now left|].
    right. split; [lia|]. now apply row_hasData_iff.
Qed.

(** ** [appendDataToSheet] *)

Section Append.

(** The rendering of numbers that the header cells are read with. *)
Variable ts : JSNumber -> string.

Lemma append_nil sheet mapping n : appendDataToSheet ts sheet [] mapping n = sheet.
Proof. reflexivity. Qed.

Lemma append_ref sheet data mapping n :
  data <> [] ->
  sheet_range (appendDataToSheet ts sheet data mapping n)
  = mkRange (s_r (sheet_range sheet)) (s_c (sheet_range sheet))
      (startRow sheet + length data - 1) (e_c (sheet_range sheet)).
Proof. destruct data; [congruence | reflexivity]. Qed.

(** Nothing above the start row, below the last appended row, right of the
    headers or under a blank header is written. *)
Lemma append_other sheet data mapping n r c :
  (r < startRow sheet \/ startRow sheet + length data <= r
   \/ length (templateHeaders_of ts sheet (sheet_range sheet)) <= c
   \/ exists h, templateHeaders_of ts sheet (sheet_range sheet) !! c = Some h
                /\ is_empty h = true) ->
  cells (appendDataToSheet ts sheet data mapping n) !! (r, c)
  = cells sheet !! (r, c).
Proof.
  intros H. destruct data as [|row0 data]; [reflexivity|].
  unfold appendDataToSheet. cbv iota. cbn [cells].
  apply write_rows_other. rewrite Nat.add_0_r. exact H.
Qed.

(** Record [k] is written in row [startRow + k]; the cell under the header
    of index [i] holds the typed cell of the value resolved for it. *)
Lemma append_written sheet data mapping n k csvRow i h :
  data !! k = Some csvRow ->
  templateHeaders_of ts sheet (sheet_range sheet) !! i = Some h ->
  is_empty h = false ->
  cells (appendDataToSheet ts sheet data mapping n) !! (startRow sheet + k, i)
  = Some (typed_cell h (resolve mapping csvRow h)).
Proof.
  intros Hk Hi Hh. destruct data as [|row0 data]; [discriminate|].
  unfold appendDataToSheet. cbv iota. cbn [cells].
  now apply (write_rows_written mapping _ _ (row0 :: data) 0 (cells sheet) k).
Qed.

(** The header of index [i] is the trimmed text of the cell of row 0 in
    column [range.s.c + i]. *)
Lemma templateHeaders_lookup sheet i :
  s_c (sheet_range sheet) + i <= e_c (sheet_range sheet) ->
  templateHeaders_of ts sheet (sheet_range sheet) !! i
  = Some (header_text ts
            (cells sheet !! (0, s_c (sheet_range sheet) + i))).
Proof.
  intros Hi. unfold templateHeaders_of, range_cols.
  rewrite list_lookup_fmap, lookup_seq_lt by lia. reflexivity.
Qed.

Lemma templateHeaders_length sheet :
  length (templateHeaders_of ts sheet (sheet_range sheet))
  = e_c (sheet_range sheet) + 1 - s_c (sheet_range sheet).
Proof.
  unfold templateHeaders_of, range_cols. now rewrite length_map, length_seq.
Qed.

(** For a sheet whose range starts in column A, every written row is
    aligned with the header row: column [c] is written exactly when its own
    header is not blank, with the value resolved for that header. *)
Lemma append_aligned sheet data mapping n k csvRow c :
  s_c (sheet_range sheet) = 0 ->
  data !! k = Some csvRow -> c <= e_c (sheet_range sheet) ->
  let h := header_text ts (cells sheet !! (0, c)) in
  cells (appendDataToSheet ts sheet data mapping n) !! (startRow sheet + k, c)
  = if is_empty h then cells sheet !! (startRow sheet + k, c)
    else Some (typed_cell h (resolve mapping csvRow h)).
Proof.
  intros Hs Hk Hc h.
  assert (Hh : templateHeaders_of ts sheet (sheet_range sheet) !! c = Some h).
  { rewrite templateHeaders_lookup by lia. now rewrite Hs. }
  destruct (is_empty h) eqn:He.
  - apply append_other. right. right. right. now exists h.
  - now apply append_written.
Qed.

End Append.

(** C4 (code at the failing input): the range of the template sheet is
    B1:C1, with the headers "Invoice No" in B1 and "Taxable Value" in C1.
    The headers read are those of columns B and C, but the values resolved
    for them are written in columns A and B: column A, which has no header,
    receives the invoice number, column B, under "Invoice No", receives the
    taxable value, and column C, under "Taxable Value", stays empty. *)
Theorem C4_offset_range_shifts_columns (ts : JSNumber -> string) :
  let sheet' :=
    appendDataToSheet ts sheet_from_B [invoice_row] (mapping_for "b2b")
      "b2b" in
  templateHeaders_of ts sheet_from_B (sheet_range sheet_from_B)
  = ["Invoice No"; "Taxable Value"]
  /\ header_text ts (cells sheet_from_B !! (0, 0)) = EmptyString
  /\ header_text ts (cells sheet_from_B !! (0, 1)) = "Invoice No"
  /\ header_text ts (cells sheet_from_B !! (0, 2)) = "Taxable Value"
  /\ cells sheet' !! (1, 0) = Some (text_cell "INV001")
  /\ cells sheet' !! (1, 1) = Some (number_cell (Finite (1000 # 1)))
  /\ cells sheet' !! (1, 2) = None.
Proof. repeat split; vm_compute; reflexivity. Qed.

Section Assembler.

(** The rendering of numbers that the header cells are read with. *)
Variable ts : JSNumber -> string.

(** The three outcomes of one file. *)
Lemma process_file_skip wb file :
  getSheetName (name file) = None \/ file_data file = [] ->
  process_file ts wb file = Ok wb.
Proof.
  unfold process_file, file_data. intros [->| ->]; [reflexivity|].
  now destruct (getSheetName (name file)).
Qed.

Lemma process_file_append wb file cat sheet :
  getSheetName (name file) = Some cat -> Sheets wb !! cat = Some sheet ->
  process_file ts wb file
  = Ok (mkBook (SheetNames wb)
          (<[cat := appendDataToSheet ts sheet (file_data file)
                      (mapping_for cat) cat]> (Sheets wb))).
Proof.
  unfold process_file, file_data. intros -> Hs.
  destruct (map trimAll (parseCSV (content file))) eqn:Hd.
  - simpl. f_equal. destruct wb as [ns ss]. simpl in *. f_equal.
    symmetry. now apply insert_id.
  - now rewrite Hs.
Qed.

Lemma process_file_fresh wb file cat :
  getSheetName (name file) = Some cat -> Sheets wb !! cat = None ->
  file_data file <> [] ->
  process_file ts wb file
  = book_append_sheet
      (mkBook (SheetNames wb)
         (<[cat := json_to_sheet (file_data file)]> (Sheets wb)))
      (json_to_sheet (file_data file)) cat.
Proof.
  unfold process_file, file_data. intros -> Hs Hd.
  destruct (map trimAll (parseCSV (content file))); [congruence|].
  now rewrite Hs.
Qed.

(** The frame of one file: no sheet but the one of its category changes,
    and the list of names grows by at most that category. *)
Lemma process_file_frame wb file wb' :
  process_file ts wb file = Ok wb' ->
  match getSheetName (name file) with
  | None => wb' = wb
  | Some cat =>
      (forall n, n <> cat -> Sheets wb' !! n = Sheets wb !! n)
      /\ (SheetNames wb' = SheetNames wb
          \/ (Sheets wb !! cat = None
              /\ SheetNames wb' = (SheetNames wb ++ [cat])%list))
  end.
Proof.
  intros Hp. destruct (getSheetName (name file)) as [cat|] eqn:Hcat.
  - destruct (Sheets wb !! cat) as [sheet|] eqn:Hs.
    + rewrite (process_file_append wb file cat sheet Hcat Hs) in Hp.
      injection Hp as <-. split; [|now left].
      intros n Hn. simpl. now apply lookup_insert_ne.
    + destruct (file_data file) as [|row0 data] eqn:Hd.
      * rewrite process_file_skip in Hp by now right.
        injection Hp as <-. split; [reflexivity | now left].
      * rewrite (process_file_fresh wb file cat Hcat Hs) in Hp
          by (rewrite Hd; discriminate).
        unfold book_append_sheet in Hp. simpl in Hp.
        case_bool_decide; [discriminate|]. injection Hp as <-. simpl.
        split; [|now right].
        intros n Hn. now rewrite !lookup_insert_ne.
  - rewrite process_file_skip in Hp by now left. now injection Hp.
Qed.

(** C10: processing one file changes no sheet other than the one named by
    the file's category, and leaves the list of sheet names as it was or
    with that category, until then without a sheet, added at its end; a
    file without category changes nothing. *)
Theorem C10_only_category_sheet_changes wb file wb' :
  process_file ts wb file = Ok wb' ->
  match getSheetName (name file) with
  | None => wb' = wb
  | Some cat =>
      (forall n, n <> cat -> Sheets wb' !! n = Sheets wb !! n)
      /\ (SheetNames wb' = SheetNames wb
          \/ (Sheets wb !! cat = None
              /\ SheetNames wb' = (SheetNames wb ++ [cat])%list))
  end.
Proof. exact (process_file_frame wb file wb'). Qed.

(** Processing never fails on a workbook whose sheets are all listed, and
    gives such a workbook again. *)
Lemma process_file_total wb file :
  sheets_listed wb ->
  exists wb', process_file ts wb file = Ok wb' /\ sheets_listed wb'.
Proof.
  intros Hwb. destruct (getSheetName (name file)) as [cat|] eqn:Hcat.
  - destruct (Sheets wb !! cat) as [sheet|] eqn:Hs.
    + rewrite (process_file_append wb file cat sheet Hcat Hs).
      eexists. split; [reflexivity|].
      intros n Hn. simpl in *.
      apply lookup_insert_None in Hn as [Hn _]. now apply Hwb.
    + destruct (file_data file) as [|row0 data] eqn:Hd.
      * rewrite process_file_skip by now right. eauto.
      * rewrite (process_file_fresh wb file cat Hcat Hs)
          by (rewrite Hd; discriminate).
        unfold book_append_sheet. simpl.
        rewrite bool_decide_eq_false_2 by now apply Hwb.
        eexists. split; [reflexivity|].
        intros n Hn. simpl in *. rewrite insert_insert_eq in Hn.
        apply lookup_insert_None in Hn as [Hn Hne].
        rewrite elem_of_app, list_elem_of_singleton.
        intros [Hin| ->]; [now apply (Hwb n) | congruence].
  - rewrite process_file_skip by now left. eauto.
Qed.

Lemma process_files_total csvFiles : forall wb,
  sheets_listed wb ->
  exists wb', process_files ts wb csvFiles = Ok wb' /\ sheets_listed wb'.
Proof.
  induction csvFiles as [|file csvFiles IH]; intros wb Hwb; simpl.
  - eauto.
  - destruct (process_file_total wb file Hwb) as (wb1 & -> & Hwb1).
    now apply IH.
Qed.

(** A file without category can be dropped from the list. *)
Lemma process_files_skip pre : forall wb file post,
  getSheetName (name file) = None ->
  process_files ts wb (pre ++ file :: post)%list
  = process_files ts wb (pre ++ post)%list.
Proof.
  induction pre as [|f pre IH]; intros wb file post Hnone; simpl.
  - rewrite process_file_skip by now left. reflexivity.
  - destruct (process_file ts wb f); [now apply IH | reflexivity].
Qed.

End Assembler.

(** ** The classifier *)

Lemma getSheetName_first_keyword fileName :
  getSheetName fileName
  = option_map snd
      (List.find (fun kw => includes (toUpperCase fileName) (fst kw)) keywords).
Proof.
  unfold getSheetName, keywords. simpl.
  repeat match goal with
         | |- context [includes ?u ?k] => destruct (includes u k)
         end; reflexivity.
Qed.

(** C8: the category of a file name is that of the first keyword of the
    ordered table found in the upper-cased name, and there is none when no
    keyword is found.  A file without category leaves the workbook as it
    is, and generation gives the same result with and without it; a file
    named "readme.csv" is such a file, whatever it holds. *)
Theorem C8_unclassified_file_skipped :
  (forall fileName,
      getSheetName fileName
      = option_map snd
          (List.find (fun kw => includes (toUpperCase fileName) (fst kw))
             keywords))
  /\ (forall ts wb file,
        getSheetName (name file) = None -> process_file ts wb file = Ok wb)
  /\ (forall ts template pre file post,
        getSheetName (name file) = None ->
        generateGSTR1Excel ts template (pre ++ file :: post)%list
        = generateGSTR1Excel ts template (pre ++ post)%list)
  /\ (forall ts wb text,
        process_file ts wb (mkFile "readme.csv" text) = Ok wb)
  /\ (forall ts template pre text post,
        generateGSTR1Excel ts template
          (pre ++ mkFile "readme.csv" text :: post)%list
        = generateGSTR1Excel ts template (pre ++ post)%list).
Proof.
  split; [exact getSheetName_first_keyword|].
  split; [|split; [|split]].
  - intros ts wb file H. apply process_file_skip. now left.
  - intros ts template pre file post H. now apply process_files_skip.
  - intros ts wb text. apply process_file_skip. now left.
  - intros ts template pre text post. now apply process_files_skip.
Qed.

(** ** [json_to_sheet] *)

Lemma forEach_invariant {A S : Type} (f : S -> A -> nat -> S)
    (P : nat -> S -> Prop) (a : list A) : forall i st,
  P i st ->
  (forall j x st', a !! j = Some x -> P (i + j) st' ->
                   P (Datatypes.S (i + j)) (f st' x (i + j))) ->
  P (i + length a) (forEach f a i st).
Proof.
  induction a as [|x a IH]; intros i st H0 Hstep; simpl.
  - now rewrite Nat.add_0_r.
  - replace (i + Datatypes.S (length a)) with (Datatypes.S i + length a) by lia.
    apply IH.
    + specialize (Hstep 0 x st eq_refl). rewrite Nat.add_0_r in Hstep. auto.
    + intros j y st' Hj HP.
      specialize (Hstep (Datatypes.S j) y st' Hj).
      replace (i + Datatypes.S j) with (Datatypes.S i + j) in Hstep by lia. auto.
Qed.

Section JsonToSheet.

Variable data : list JSObject.

Lemma add_json_cells_rows R JS l : forall st,
  data !! R = Some JS -> (forall kv, In kv l -> In kv JS) ->
  rows_from_records data (Datatypes.S R) (snd st) ->
  rows_from_records data (Datatypes.S R) (snd (fold_left (add_json_cell R) l st)).
Proof.
  induction l as [|kv l IH]; intros st HR Hl Hst; [exact Hst|].
  simpl. apply IH; [exact HR | intros; apply Hl; now right |].
  unfold add_json_cell. destruct st as [hdr cs].
  destruct (indexOf (fst kv) hdr) as [C0|]; simpl;
    intros r C c Hc;
    (apply lookup_insert_Some in Hc as [[[= <- <-] <-]|[_ Hc]];
     [exists R, JS, kv; repeat split; auto; apply Hl; now left
     | exact (Hst r C c Hc)]).
Qed.

Lemma json_records_rows :
  rows_from_records data (length data) (snd (json_rows data)).
Proof.
  unfold json_rows.
  apply (forEach_invariant _
           (fun i st => rows_from_records data i (snd st)) data 0).
  - intros r C c Hc. simpl in Hc. now rewrite lookup_empty in Hc.
  - intros j JS st Hj Hst. simpl in *.
    apply (add_json_cells_rows j JS JS st Hj); [auto|].
    intros r C c Hc. destruct (Hst r C c Hc) as (R & JS' & kv & ? & ? & ?).
    exists R, JS', kv. intuition lia.
Qed.

Lemma header_cells_rows hdr :
  forall i (cs : gmap (nat * nat) Cell) (r C : nat) c,
  forEach (fun m h C => <[(0, C) := text_cell h]> m) hdr i cs !! (r, C)
  = Some c ->
  (r = 0 /\ exists h, c = text_cell h) \/ cs !! (r, C) = Some c.
Proof.
  induction hdr as [|h hdr IH]; intros i cs r C c Hc; [now right|].
  simpl in Hc. apply IH in Hc as [Hc|Hc]; [now left|].
  apply lookup_insert_Some in Hc as [[[= <- <-] <-]|[_ Hc]]; [|now right].
  left. eauto.
Qed.

(** Row 0 of the new sheet holds text cells; a cell of row [R + 1] is the
    text cell of a value of record [R]. *)
Lemma json_to_sheet_cells r C c :
  cells (json_to_sheet data) !! (r, C) = Some c ->
  (r = 0 /\ exists h, c = text_cell h)
  \/ exists R JS kv, r = R + 1 /\ data !! R = Some JS /\ In kv JS
                     /\ c = text_cell (snd kv).
Proof.
  unfold json_to_sheet. pose proof json_records_rows as Hrows.
  destruct (json_rows data) as [hdr cs]. simpl in *.
  intros Hc. apply header_cells_rows in Hc as [Hc|Hc]; [now left|].
  right. destruct (Hrows r C c Hc) as (R & JS & kv & ? & ? & ? & ? & ?).
  now exists R, JS, kv.
Qed.

Lemma json_to_sheet_range :
  s_c (sheet_range (json_to_sheet data)) = 0
  /\ e_r (sheet_range (json_to_sheet data)) = length data.
Proof.
  unfold json_to_sheet.
  now destruct (json_rows data) as [hdr cs].
Qed.

End JsonToSheet.

(** C3 (amended): a cell of a freshly created sheet is always a text cell.
    In an append, an empty value is written as the empty text cell; a
    non-empty value whose final form (the place-of-supply code stripped in
    such a column) holds no comma is written as a number when that form
    matches an optional dash, digits and an optional point and digits, and
    as trimmed text otherwise. *)
Theorem C3_written_type :
  (forall data r C c,
      cells (json_to_sheet data) !! (r, C) = Some c -> cell_t c = TStr)
  /\ (forall h, typed_cell h EmptyString = text_cell EmptyString)
  /\ (forall h v,
        is_empty v = false -> includes (final_value h v) "," = false ->
        typed_cell h v =
          if matches_numeric (final_value h v)
          then number_cell (parseFloat (final_value h v))
          else text_cell (trim (final_value h v))).
Proof.
  split; [|split].
  - intros data r C c Hc.
    apply json_to_sheet_cells in Hc
      as [(_ & h & ->)|(R & JS & kv & _ & _ & _ & ->)]; reflexivity.
  - reflexivity.
  - intros h v Hv _. now apply typed_cell_cases.
Qed.

(** C3 (counterexample): the only record of the first file of a category
    has the value "1000", which the claim types as numeric; the new sheet
    holds it as a text cell. *)
Lemma C3_fresh_sheet_number_is_text :
  spec_cell_type "1000" = TNum
  /\ cells (json_to_sheet [[("Taxable Value", "1000")]]) !! (1, 0)
     = Some (mkCell TStr (Some (VStr "1000"))).
Proof. split; reflexivity. Qed.

(** ** Order of the rows across files *)

Lemma data_row_above_start sheet r : data_row sheet r -> r < startRow sheet.
Proof.
  intros [Hr Hv]. destruct (startRow_scan sheet) as (_ & _ & H & _). auto.
Qed.

Section Order.

(** The rendering of numbers that the header cells are read with. *)
Variable ts : JSNumber -> string.

(** A row with data stays a row with data when records are appended. *)
Lemma append_keeps_data_row sheet data mapping n r :
  data_row sheet r -> data_row (appendDataToSheet ts sheet data mapping n) r.
Proof.
  intros Hd. destruct data as [|row0 data]; [exact Hd|].
  pose proof (data_row_above_start sheet r Hd) as Hlt.
  destruct Hd as [Hr (col & Hcol & Hv)].
  unfold data_row, row_has_value.
  rewrite (append_ref ts sheet (row0 :: data) mapping n)
    by discriminate.
  split; [simpl; lia|].
  exists col. split; [exact Hcol|].
  rewrite append_other by now left. exact Hv.
Qed.

(** The append start row never moves up. *)
Lemma append_start_mono sheet data mapping n :
  startRow sheet <= startRow (appendDataToSheet ts sheet data mapping n).
Proof.
  destruct (startRow_scan sheet) as (H1 & H2 & _ & [H4|[H4 H5]]).
  - destruct (startRow_scan (appendDataToSheet ts sheet data mapping n))
      as (H & _).
    lia.
  - assert (Hd : data_row sheet (startRow sheet - 1)) by (split; [lia | exact H5]).
    apply (append_keeps_data_row sheet data mapping n) in Hd.
    apply data_row_above_start in Hd. lia.
Qed.

(** What one file leaves of a sheet that exists: the rows above its append
    start row, its rows with data, and a start row that is not higher. *)
Lemma process_file_keeps wb file wb' cat sheet :
  process_file ts wb file = Ok wb' ->
  Sheets wb !! cat = Some sheet ->
  exists sheet',
    Sheets wb' !! cat = Some sheet'
    /\ startRow sheet <= startRow sheet'
    /\ (forall r, data_row sheet r -> data_row sheet' r)
    /\ (forall r c, r < startRow sheet ->
                    cells sheet' !! (r, c) = cells sheet !! (r, c)).
Proof.
  intros Hp Hs.
  pose proof (process_file_frame ts wb file wb' Hp) as Hframe.
  destruct (getSheetName (name file)) as [cat'|] eqn:Hcat.
  - destruct (decide (cat = cat')) as [<-|Hne].
    + rewrite (process_file_append ts wb file cat sheet Hcat Hs)
        in Hp.
      injection Hp as <-. eexists. split; [apply lookup_insert_eq|].
      split; [apply append_start_mono|].
      split; [intros r; apply append_keeps_data_row|].
      intros r c Hr. apply append_other. now left.
    + destruct Hframe as [Hframe _]. exists sheet.
      rewrite Hframe by exact Hne. auto.
  - subst wb'. exists sheet. auto.
Qed.

Lemma process_files_keeps csvFiles : forall wb wb' cat sheet,
  process_files ts wb csvFiles = Ok wb' ->
  Sheets wb !! cat = Some sheet ->
  exists sheet',
    Sheets wb' !! cat = Some sheet'
    /\ startRow sheet <= startRow sheet'
    /\ (forall r, data_row sheet r -> data_row sheet' r)
    /\ (forall r c, r < startRow sheet ->
                    cells sheet' !! (r, c) = cells sheet !! (r, c)).
Proof.
  induction csvFiles as [|file csvFiles IH]; intros wb wb' cat sheet Hp Hs;
    simpl in Hp.
  - injection Hp as <-. exists sheet. auto.
  - destruct (process_file ts wb file) as [wb1|] eqn:H1;
      [|discriminate].
    destruct (process_file_keeps wb file wb1 cat sheet H1 Hs)
      as (sheet1 & Hs1 & Hle1 & Hd1 & Hc1).
    destruct (IH wb1 wb' cat sheet1 Hp Hs1) as (sheet' & Hs' & Hle & Hd & Hc).
    exists sheet'. split; [exact Hs'|]. split; [lia|]. split; [auto|].
    intros r c Hr. rewrite Hc by lia. now apply Hc1.
Qed.

(** Whatever files are processed, in a sheet that already exists row 0 and
    every row above the append start row stay as they were.  The append
    start row is row 1 when no row from 1 to the end of the sheet's range
    holds a non-empty cell in a column of the range, and otherwise the row
    after the last such row. *)
Lemma header_row_kept wb csvFiles wb' cat sheet :
  Sheets wb !! cat = Some sheet ->
  process_files ts wb csvFiles = Ok wb' ->
  exists sheet',
    Sheets wb' !! cat = Some sheet'
    /\ (forall c, cells sheet' !! (0, c) = cells sheet !! (0, c))
    /\ (forall r c, r < startRow sheet ->
                    cells sheet' !! (r, c) = cells sheet !! (r, c))
    /\ ((forall r, 1 <= r <= e_r (sheet_range sheet) ->
                   ~ row_has_value sheet r) ->
        startRow sheet = 1)
    /\ (forall last,
          1 <= last <= e_r (sheet_range sheet) ->
          row_has_value sheet last ->
          (forall r, last < r <= e_r (sheet_range sheet) ->
                     ~ row_has_value sheet r) ->
          startRow sheet = last + 1).
Proof.
  intros Hs Hp.
  destruct (process_files_keeps csvFiles wb wb' cat sheet Hp Hs)
    as (sheet' & Hs' & _ & _ & Habove).
  destruct (startRow_scan sheet) as (H1 & H2 & H3 & H4).
  exists sheet'. split; [exact Hs'|].
  split; [intros c; apply Habove; lia|]. split; [exact Habove|]. split.
  - intros Hnone. destruct H4 as [H4|[H4 H5]]; [exact H4|].
    elim (Hnone (startRow sheet - 1)); [lia | exact H5].
  - intros last Hlast Hv Hafter.
    specialize (H3 last Hlast Hv).
    destruct H4 as [H4|[H4 H5]]; [lia|].
    destruct (decide (startRow sheet = last + 1)) as [E|Hne]; [exact E|].
    elim (Hafter (startRow sheet - 1)); [lia | exact H5].
Qed.

(** The loop over a list of files is the loop over its first part followed
    by the loop over the rest. *)
Lemma process_files_app l1 : forall l2 wb out,
  process_files ts wb (l1 ++ l2)%list = Ok out ->
  exists wb1,
    process_files ts wb l1 = Ok wb1 /\ process_files ts wb1 l2 = Ok out.
Proof.
  induction l1 as [|file l1 IH]; intros l2 wb out Hp; simpl in *.
  - eauto.
  - destruct (process_file ts wb file) as [wb0|]; [|discriminate]. now apply IH.
Qed.

(** Where the rows of the earlier of two files of one category end up with
    respect to those of the later one. *)
Lemma rows_before wb A wb1 mid wb2 B cat sA nA sB nB :
  process_file ts wb A = Ok wb1 -> process_files ts wb1 mid = Ok wb2 ->
  file_rows wb A = Some (cat, sA, nA) ->
  file_rows wb2 B = Some (cat, sB, nB) ->
  sA <= sB
  /\ exists sheet1,
       Sheets wb1 !! cat = Some sheet1
       /\ forall i i', i <= i' < nA -> row_has_value sheet1 (sA + i') ->
                       sA + i < sB.
Proof.
  intros HA Hmid HrA HrB. unfold file_rows in HrA, HrB.
  destruct (getSheetName (name A)) as [catA|] eqn:HcA; [|discriminate].
  destruct (getSheetName (name B)) as [catB|] eqn:HcB; [|discriminate].
  destruct (file_data A) as [|a0 dA] eqn:HdA; [discriminate|].
  destruct (file_data B) as [|b0 dB] eqn:HdB; [discriminate|].
  injection HrA as -> <- <-. injection HrB as -> <- <-.
  assert (Hsheet1 : exists sheet1,
             Sheets wb1 !! cat = Some sheet1
             /\ match Sheets wb !! cat with
                | None => 1
                | Some sheet => startRow sheet
                end <= startRow sheet1
             /\ e_r (sheet_range sheet1)
                = match Sheets wb !! cat with
                  | None => 1
                  | Some sheet => startRow sheet
                  end + length (a0 :: dA) - 1).
  { destruct (Sheets wb !! cat) as [sheet|] eqn:Hs.
    - rewrite (process_file_append ts wb A cat sheet HcA Hs) in HA.
      injection HA as <-. eexists. split; [apply lookup_insert_eq|].
      rewrite HdA. split; [apply append_start_mono|].
      now rewrite append_ref by discriminate.
    - rewrite (process_file_fresh ts wb A cat HcA Hs) in HA
        by (rewrite HdA; discriminate).
      unfold book_append_sheet in HA. case_bool_decide; [discriminate|].
      injection HA as <-. eexists. simpl.
      split; [apply lookup_insert_eq|]. rewrite HdA.
      destruct (json_to_sheet_range (a0 :: dA)) as [_ ->].
      split; [|simpl; lia].
      destruct (startRow_scan (json_to_sheet (a0 :: dA))) as (Hge & _).
      exact Hge. }
  destruct Hsheet1 as (sheet1 & Hs1 & Hle1 & Her).
  destruct (process_files_keeps mid wb1 wb2 cat sheet1 Hmid Hs1)
    as (sheet2 & Hs2 & Hle2 & Hd2 & _).
  rewrite Hs2. split; [lia|].
  exists sheet1. split; [exact Hs1|].
  intros i i' Hi Hv.
  assert (Hd : data_row sheet1
                 (match Sheets wb !! cat with
                  | None => 1
                  | Some sheet => startRow sheet
                  end + i')).
  { split; [|exact Hv]. rewrite Her.
    assert (1 <= match Sheets wb !! cat with
                 | None => 1
                 | Some sheet => startRow sheet
                 end).
    { destruct (Sheets wb !! cat) as [sheet|]; [|lia].
      destruct (startRow_scan sheet) as (H' & _). exact H'. }
    cbn [length] in *. lia. }
  apply Hd2, data_row_above_start in Hd. lia.
Qed.

(** Record [k] of a file is written in row [first + k] of its block. *)
Lemma records_in_rows wb file wb' cat s n :
  process_file ts wb file = Ok wb' -> file_rows wb file = Some (cat, s, n) ->
  exists sheet',
    Sheets wb' !! cat = Some sheet' /\ n = length (file_data file)
    /\ match Sheets wb !! cat with
       | Some sheet =>
           forall k csvRow i h,
             file_data file !! k = Some csvRow ->
             templateHeaders_of ts sheet (sheet_range sheet) !! i
             = Some h ->
             is_empty h = false ->
             cells sheet' !! (s + k, i)
             = Some (typed_cell h (resolve (mapping_for cat) csvRow h))
       | None =>
           forall k C c,
             cells sheet' !! (s + k, C) = Some c ->
             exists JS kv, file_data file !! k = Some JS /\ In kv JS
                           /\ c = text_cell (snd kv)
       end.
Proof.
  intros Hp Hr. unfold file_rows in Hr.
  destruct (getSheetName (name file)) as [cat'|] eqn:Hcat; [|discriminate].
  destruct (file_data file) as [|r0 d] eqn:Hd; [discriminate|].
  injection Hr as -> <- <-.
  destruct (Sheets wb !! cat) as [sheet|] eqn:Hs.
  - rewrite (process_file_append ts wb file cat sheet Hcat Hs) in Hp.
    injection Hp as <-. eexists. split; [apply lookup_insert_eq|].
    split; [reflexivity|].
    intros k csvRow i h Hk Hi Hh. rewrite Hd. now apply append_written.
  - rewrite (process_file_fresh ts wb file cat Hcat Hs) in Hp
      by (rewrite Hd; discriminate).
    unfold book_append_sheet in Hp. case_bool_decide; [discriminate|].
    injection Hp as <-. eexists. simpl. split; [apply lookup_insert_eq|].
    split; [reflexivity|].
    intros k C c Hc. rewrite Hd in Hc.
    apply json_to_sheet_cells in Hc as [[Hc _]|(R & JS & kv & HR & HJS & Hkv & ->)];
      [discriminate|].
    exists JS, kv. replace k with R by lia. auto.
Qed.

(** C6 (amended): the files are processed in the order of the list.  For
    two files A then B of one category, the rows of B start no higher than
    the rows of A, and every row of A at or above a row of A that holds a
    non-empty cell, in the sheet as A leaves it, has a strictly smaller
    index than every row of B.  Within one file, record [k] is written in
    row [first + k]. *)
Theorem C6_rows_in_file_order :
  (forall template pre A mid B post out,
      generateGSTR1Excel ts template
        (pre ++ A :: mid ++ B :: post)%list = Ok out ->
      exists wb wb1 wb2 wb3,
        process_files ts (initial_workbook template) pre = Ok wb
        /\ process_file ts wb A = Ok wb1
        /\ process_files ts wb1 mid = Ok wb2
        /\ process_file ts wb2 B = Ok wb3
        /\ process_files ts wb3 post = Ok out
        /\ forall cat sA nA sB nB,
             file_rows wb A = Some (cat, sA, nA) ->
             file_rows wb2 B = Some (cat, sB, nB) ->
             sA <= sB
             /\ exists sheet1,
                  Sheets wb1 !! cat = Some sheet1
                  /\ forall i i', i <= i' < nA ->
                                  row_has_value sheet1 (sA + i') ->
                                  forall j, j < nB -> sA + i < sB + j)
  /\ (forall wb file wb' cat s n,
        process_file ts wb file = Ok wb' ->
        file_rows wb file = Some (cat, s, n) ->
        exists sheet',
          Sheets wb' !! cat = Some sheet' /\ n = length (file_data file)
          /\ match Sheets wb !! cat with
             | Some sheet =>
                 forall k csvRow i h,
                   file_data file !! k = Some csvRow ->
                   templateHeaders_of ts sheet
                     (sheet_range sheet) !! i = Some h ->
                   is_empty h = false ->
                   cells sheet' !! (s + k, i)
                   = Some (typed_cell h (resolve (mapping_for cat) csvRow h))
             | None =>
                 forall k C c,
                   cells sheet' !! (s + k, C) = Some c ->
                   exists JS kv, file_data file !! k = Some JS /\ In kv JS
                                 /\ c = text_cell (snd kv)
             end).
Proof.
  split; [|exact records_in_rows].
  intros template pre A mid B post out Hgen.
  unfold generateGSTR1Excel in Hgen.
  change (match template with Some wb => wb | None => book_new end)
    with (initial_workbook template) in Hgen.
  apply process_files_app in Hgen as (wb & Hpre & Hrest).
  simpl in Hrest.
  destruct (process_file ts wb A) as [wb1|] eqn:HA; [|discriminate].
  apply process_files_app in Hrest as (wb2 & Hmid & Hrest).
  simpl in Hrest.
  destruct (process_file ts wb2 B) as [wb3|] eqn:HB; [|discriminate].
  exists wb, wb1, wb2, wb3. repeat (split; [assumption|]).
  intros cat sA nA sB nB HrA HrB.
  destruct (rows_before wb A wb1 mid wb2 B cat sA nA sB nB
              HA Hmid HrA HrB) as (Hle & sheet1 & Hs1 & Hrows).
  split; [exact Hle|]. exists sheet1. split; [exact Hs1|].
  intros i i' Hi Hv j _. specialize (Hrows i i' Hi Hv). lia.
Qed.

End Order.

(** C5 (code at the failing input): the range of the template sheet is
    B1:B1, with the header "X" in B1.  The value of the first file is
    written in A2, outside the columns of the range, so the scan for the
    append start row, which reads the columns of the range, finds row 1
    empty: the start row is still 1 although row 1 holds a non-empty cell,
    and the value of the second file is written in A2 again, in place of
    the first.  Row 0 stays as it was. *)
Theorem C5_offset_range_row_overwritten (ts : JSNumber -> string) :
  let sheet1 :=
    appendDataToSheet ts sheet_B1 (file_data file_111) (mapping_for "b2b")
      "b2b" in
  let sheet2 :=
    appendDataToSheet ts sheet1 (file_data file_222) (mapping_for "b2b")
      "b2b" in
  generateGSTR1Excel ts (Some template_B1) [file_111]
  = Ok (mkBook ["b2b"] {[ "b2b" := sheet1 ]})
  /\ generateGSTR1Excel ts (Some template_B1) [file_111; file_222]
     = Ok (mkBook ["b2b"] {[ "b2b" := sheet2 ]})
  /\ startRow sheet_B1 = 1
  /\ cells sheet1 !! (1, 0) = Some (number_cell (Finite (111 # 1)))
  /\ has_value (cells sheet1 !! (1, 0)) = true
  /\ sheet_range sheet1 = mkRange 0 1 1 1
  /\ startRow sheet1 = 1
  /\ cells sheet2 !! (1, 0) = Some (number_cell (Finite (222 # 1)))
  /\ cells sheet2 !! (0, 1) = Some (text_cell "X")
  /\ cells sheet2 !! (2, 0) = None.
Proof. repeat split; vm_compute; reflexivity. Qed.

(** C6 (counterexample): the last line of the first file holds only a
    separator, so its second record fills row 2 with empty text cells; the
    only record of the second file is then written in row 2 as well, and
    replaces them. *)
Lemma C6_trailing_empty_row_reused :
  generateGSTR1Excel no_toString None [file_A; file_B] = Ok book_AB
  /\ process_file no_toString book_new file_A = Ok book_A
  /\ process_file no_toString book_A file_B = Ok book_AB
  /\ file_rows book_new file_A = Some ("b2b", 1, 2)
  /\ file_rows book_A file_B = Some ("b2b", 2, 1)
  /\ cells sheet_A !! (2, 0) = Some (text_cell EmptyString)
  /\ (Sheets book_AB !! "b2b" ≫= fun sheet => cells sheet !! (2, 0))
     = Some (number_cell (Finite 3))
  /\ ~ (1 + 1 < 2 + 0).
Proof.
  repeat split; try (vm_compute; reflexivity). lia.
Qed.

(** ** The line parser *)

Lemma string_app_assoc s1 s2 s3 : (s1 ++ s2) ++ s3 = s1 ++ (s2 ++ s3).
Proof.
  induction s1 as [|c s1 IH]; [reflexivity|].
  now rewrite !string_app_cons, IH.
Qed.

(** Outside quotes, plain characters are collected into the current
    field. *)
Lemma parseLine_loop_plain f : forall rest result current,
  all_chars plain_char f = true ->
  parseLine_loop (f ++ rest) result current false
  = parseLine_loop rest result (current ++ f) false.
Proof.
  induction f as [|c f IH]; intros rest result current Hf.
  - now rewrite string_app_nil_r.
  - simpl in Hf. apply andb_true_iff in Hf as [Hc Hf].
    unfold plain_char in Hc. apply andb_true_iff in Hc as [Hc1 Hc2].
    apply negb_true_iff in Hc1, Hc2.
    rewrite string_app_cons. simpl parseLine_loop. rewrite Hc1, Hc2. simpl.
    rewrite IH by assumption. now rewrite string_app_assoc.
Qed.

(** Inside quotes, every character but the quote is collected, the comma
    included. *)
Lemma parseLine_loop_quoted body : forall rest result current,
  all_chars not_quote body = true ->
  parseLine_loop (body ++ rest) result current true
  = parseLine_loop rest result (current ++ body) true.
Proof.
  induction body as [|c body IH]; intros rest result current Hb.
  - now rewrite string_app_nil_r.
  - simpl in Hb. apply andb_true_iff in Hb as [Hc Hb].
    unfold not_quote in Hc. apply negb_true_iff in Hc.
    rewrite string_app_cons. simpl parseLine_loop. rewrite Hc.
    rewrite andb_false_r.
    rewrite IH by assumption. now rewrite string_app_assoc.
Qed.

Lemma parseLine_loop_join fs : forall f result,
  (forall g, In g (f :: fs) -> all_chars plain_char g = true /\ trim g = g) ->
  parseLine_loop (String.concat "," (f :: fs)) result EmptyString false
  = (result ++ f :: fs)%list.
Proof.
  induction fs as [|g fs IH]; intros f result Hfs.
  - destruct (Hfs f (or_introl eq_refl)) as [Hp Ht].
    simpl String.concat.
    rewrite <- (string_app_nil_r f) at 1.
    rewrite parseLine_loop_plain by assumption.
    change (parseLine_loop "" result (EmptyString ++ f) false)
      with (result ++ [trim f])%list.
    now rewrite Ht.
  - destruct (Hfs f (or_introl eq_refl)) as [Hp Ht].
    change (String.concat "," (f :: g :: fs))
      with (f ++ String "," (String.concat "," (g :: fs))).
    rewrite parseLine_loop_plain by assumption.
    change (parseLine_loop (String "," (String.concat "," (g :: fs))) result
              (EmptyString ++ f) false)
      with (parseLine_loop (String.concat "," (g :: fs))
              (result ++ [trim f]) EmptyString false).
    rewrite IH by (intros h Hh; apply Hfs; now right).
    rewrite Ht. now rewrite <- app_assoc.
Qed.

Lemma all_chars_trimStart p s :
  all_chars p s = true -> all_chars p (trimStart s) = true.
Proof.
  induction s as [|c s IH]; simpl; [auto|].
  intros H. destruct (is_space c); [|exact H].
  apply andb_true_iff in H as [_ H]. auto.
Qed.

Lemma all_chars_trimEnd p s :
  all_chars p s = true -> all_chars p (trimEnd s) = true.
Proof.
  induction s as [|c s IH]; simpl; [auto|].
  intros H. apply andb_true_iff in H as [Hc H].
  destruct (is_space c && is_empty (trimEnd s)); [reflexivity|].
  simpl. rewrite Hc. auto.
Qed.

Lemma all_chars_trim p s : all_chars p s = true -> all_chars p (trim s) = true.
Proof. intros H. now apply all_chars_trimEnd, all_chars_trimStart. Qed.

Lemma all_chars_app p s1 s2 :
  all_chars p (s1 ++ s2) = all_chars p s1 && all_chars p s2.
Proof.
  induction s1 as [|c s1 IH]; [reflexivity|].
  rewrite string_app_cons. simpl. now rewrite IH, andb_assoc.
Qed.

Lemma parseLine_loop_no_quote line : forall result current inQuotes f,
  (forall g, In g result -> all_chars not_quote g = true) ->
  all_chars not_quote current = true ->
  In f (parseLine_loop line result current inQuotes) ->
  all_chars not_quote f = true.
Proof.
  induction line as [|c line IH]; intros result current inQuotes f Hres Hcur Hf.
  - simpl in Hf. apply in_app_or in Hf as [Hf|[<-|[]]]; [auto|].
    now apply all_chars_trim.
  - simpl in Hf. destruct (Ascii.eqb c "034") eqn:Hq.
    + exact (IH _ _ _ f Hres Hcur Hf).
    + destruct (Ascii.eqb c "," && negb inQuotes).
      * refine (IH (result ++ [trim current])%list EmptyString inQuotes f
                  _ eq_refl Hf).
        intros g Hg. apply in_app_or in Hg as [Hg|[<-|[]]]; [auto|].
        now apply all_chars_trim.
      * refine (IH _ _ _ f Hres _ Hf).
        rewrite all_chars_app, Hcur. simpl. unfold not_quote.
        now rewrite Hq.
Qed.

(** X1: a line made of fields joined by commas, each field free of commas
    and quotes and without white space around it, parses back to the
    fields. *)
Theorem X1_parseLine_join (f : string) (fs : list string) :
  (forall g, In g (f :: fs) -> all_chars plain_char g = true /\ trim g = g) ->
  parseLine (String.concat "," (f :: fs)) = f :: fs.
Proof. intros H. unfold parseLine. now rewrite parseLine_loop_join. Qed.

(** X2: no field ever holds a quote character, and a line that is one
    quoted section gives a single field, the trimmed text between the
    quotes, commas included. *)
Theorem X2_parseLine_quotes :
  (forall line f, In f (parseLine line) -> all_chars not_quote f = true)
  /\ (forall body,
        all_chars not_quote body = true ->
        parseLine (QUOTE ++ body ++ QUOTE) = [trim body]).
Proof.
  split.
  - intros line f Hf.
    apply (parseLine_loop_no_quote line [] EmptyString false f);
      [intros g [] | reflexivity | exact Hf].
  - intros body Hb. unfold parseLine, QUOTE.
    change (String "034" "" ++ body ++ String "034" "")
      with (String "034" (body ++ String "034" "")).
    change (parseLine_loop (String "034" (body ++ String "034" "")) []
              EmptyString false)
      with (parseLine_loop (body ++ String "034" "") [] EmptyString true).
    rewrite parseLine_loop_quoted by assumption. reflexivity.
Qed.

(** ** Line splitting *)

Lemma split_lines_cons c s :
  not_eol c = true -> split_lines (String c s) = push_front c (split_lines s).
Proof.
  unfold not_eol. intros H. apply andb_true_iff in H as [H1 H2].
  apply negb_true_iff in H1, H2.
  simpl split_lines. rewrite H1, H2. simpl. now destruct s.
Qed.

Lemma split_lines_last l : all_chars not_eol l = true -> split_lines l = [l].
Proof.
  induction l as [|c l IH]; [reflexivity|]. simpl all_chars. intros H.
  apply andb_true_iff in H as [Hc Hl].
  rewrite split_lines_cons, IH by assumption. reflexivity.
Qed.

Lemma split_lines_LF l rest :
  all_chars not_eol l = true ->
  split_lines (l ++ String "010" rest) = l :: split_lines rest.
Proof.
  induction l as [|c l IH]; [reflexivity|]. simpl all_chars. intros H.
  apply andb_true_iff in H as [Hc Hl].
  rewrite string_app_cons, split_lines_cons, IH by assumption. reflexivity.
Qed.

Lemma split_lines_CRLF l rest :
  all_chars not_eol l = true ->
  split_lines (l ++ String "013" (String "010" rest)) = l :: split_lines rest.
Proof.
  induction l as [|c l IH]; [reflexivity|]. simpl all_chars. intros H.
  apply andb_true_iff in H as [Hc Hl].
  rewrite string_app_cons, split_lines_cons, IH by assumption. reflexivity.
Qed.

(** X3: lines free of line-feed and carriage-return characters, joined by
    line feeds or by carriage return and line feed, split back into the
    same lines. *)
Theorem X3_split_lines_join (l : string) (ls : list string) :
  (forall x, In x (l :: ls) -> all_chars not_eol x = true) ->
  split_lines (String.concat LF (l :: ls)) = l :: ls
  /\ split_lines (String.concat CRLF (l :: ls)) = l :: ls.
Proof.
  revert l. induction ls as [|m ls IH]; intros l H.
  - simpl. rewrite split_lines_last by (apply H; now left). auto.
  - assert (Hl : all_chars not_eol l = true) by (apply H; now left).
    destruct (IH m (fun x Hx => H x (or_intror Hx))) as [IH1 IH2].
    split.
    + change (String.concat LF (l :: m :: ls))
        with (l ++ String "010" (String.concat LF (m :: ls))).
      now rewrite split_lines_LF, IH1.
    + change (String.concat CRLF (l :: m :: ls))
        with (l ++ String "013" (String "010" (String.concat CRLF (m :: ls)))).
      now rewrite split_lines_CRLF, IH2.
Qed.

(** ** Objects in property order *)

Lemma key_before_trans_false k k' x :
  key_before k k' = true -> key_before x k' = false ->
  k <> x /\ key_before x k = false.
Proof.
  unfold key_before. intros H1 H2.
  destruct (array_index k) as [i|] eqn:Ek; [|discriminate].
  destruct (array_index k') as [j|] eqn:Ek'.
  - destruct (array_index x) as [m|] eqn:Ex.
    + apply Z.ltb_lt in H1. apply Z.ltb_ge in H2. split.
      * intros ->. rewrite Ek in Ex. injection Ex as ->. lia.
      * apply Z.ltb_ge. lia.
    + split; [intros ->; congruence | reflexivity].
  - destruct (array_index x) as [m|] eqn:Ex; [discriminate|].
    split; [intros ->; congruence | reflexivity].
Qed.

Lemma obj_set_keys_in k v o x :
  In x (obj_keys (obj_set k v o)) <-> x = k \/ In x (obj_keys o).
Proof.
  unfold obj_keys. induction o as [|[k' v'] o IH]; simpl.
  - intuition.
  - destruct (String.eqb_spec k k') as [->|Hne]; simpl; [intuition|].
    destruct (key_before k k'); simpl; [intuition|].
    rewrite IH. intuition.
Qed.

Lemma obj_set_ordered k v o : obj_ordered o -> obj_ordered (obj_set k v o).
Proof.
  unfold obj_ordered, obj_keys.
  induction o as [|[k' v'] o IH]; simpl; intros Ho.
  - repeat constructor.
  - apply StronglySorted_inv in Ho as [Ho Hall].
    destruct (String.eqb_spec k k') as [->|Hne]; simpl.
    + now constructor.
    + destruct (key_before k k') eqn:Hb; simpl.
      * constructor; [now constructor|].
        constructor.
        -- split; [exact Hne|].
           unfold key_before in *.
           destruct (array_index k) as [i|]; [|discriminate].
           destruct (array_index k') as [j|]; [|reflexivity].
           apply Z.ltb_lt in Hb. apply Z.ltb_ge. lia.
        -- rewrite List.Forall_forall in Hall |- *. intros x Hx.
           destruct (Hall x Hx) as [_ Hx2].
           exact (key_before_trans_false k k' x Hb Hx2).
      * constructor; [now apply IH|].
        rewrite List.Forall_forall in Hall |- *. intros x Hx.
        apply (obj_set_keys_in k v o x) in Hx as [->|Hx]; [|now apply Hall].
        split; [congruence | exact Hb].
Qed.

Lemma obj_ordered_NoDup o : obj_ordered o -> List.NoDup (obj_keys o).
Proof.
  unfold obj_ordered. generalize (obj_keys o) as ks.
  induction ks as [|k ks IH]; intros H; [constructor|].
  apply StronglySorted_inv in H as [H Hall]. constructor; [|now apply IH].
  intros Hin. rewrite List.Forall_forall in Hall.
  destruct (Hall k Hin) as [Hne _]. now elim Hne.
Qed.

Lemma obj_get_in k v o : In (k, v) o -> obj_get k o <> None.
Proof.
  induction o as [|[a w] o IH]; simpl; [intros []|].
  intros [[= -> ->]|Hin].
  - now rewrite String.eqb_refl.
  - destruct (String.eqb k a); [discriminate | now apply IH].
Qed.

(** The keys after an assignment depend on the keys before it only. *)
Lemma obj_set_keys k v1 v2 o1 o2 :
  obj_keys o1 = obj_keys o2 ->
  obj_keys (obj_set k v1 o1) = obj_keys (obj_set k v2 o2).
Proof.
  unfold obj_keys. revert o2.
  induction o1 as [|[k1 w1] o1 IH]; intros [|[k2 w2] o2] H;
    try discriminate; [reflexivity|].
  simpl in H. injection H as <- H. simpl.
  destruct (String.eqb k k1); simpl; [now rewrite H|].
  destruct (key_before k k1); simpl; [now rewrite H|].
  now rewrite (IH o2 H).
Qed.

(** An assignment of a key that follows all the keys adds it at the
    end. *)
Lemma obj_set_last k v o :
  Forall (fun a => key_follows a k) (obj_keys o) ->
  obj_set k v o = (o ++ [(k, v)])%list.
Proof.
  unfold obj_keys. induction o as [|[k' v'] o IH]; simpl; intros H;
    [reflexivity|].
  apply Forall_cons in H as [[Hne Hb] H].
  destruct (String.eqb_spec k k') as [->|_]; [now elim Hne|].
  rewrite Hb. now rewrite IH.
Qed.

Lemma fromEntries_ordered l : forall acc,
  obj_ordered (acc ++ l)%list ->
  fold_left (fun o kv => obj_set (fst kv) (snd kv) o) l acc = (acc ++ l)%list.
Proof.
  induction l as [|[k v] l IH]; intros acc H; simpl.
  - now rewrite app_nil_r.
  - assert (Hlast : obj_set k v acc = (acc ++ [(k, v)])%list).
    { apply obj_set_last. unfold obj_ordered, obj_keys in H.
      rewrite map_app in H. simpl in H.
      clear IH. induction acc as [|[a w] acc IHa]; simpl in *; [constructor|].
      apply StronglySorted_inv in H as [H Hall].
      constructor; [|now apply IHa].
      rewrite List.Forall_forall in Hall. apply Hall.
      apply in_or_app. right. now left. }
    rewrite Hlast, IH; rewrite <- app_assoc; [reflexivity | exact H].
Qed.

Section BuildRowShape.

Variable values : list string.

Lemma set_fields_ordered headers : forall i row,
  obj_ordered row -> obj_ordered (forEach (set_field values) headers i row).
Proof.
  induction headers as [|h headers IH]; intros i row H; simpl; [exact H|].
  apply IH. unfold set_field.
  destruct (String.eqb h "__proto__"); [exact H | now apply obj_set_ordered].
Qed.

Lemma set_fields_trimmed headers : forall i row,
  (forall f, In f values -> trim f = f) ->
  values_trimmed row ->
  values_trimmed (forEach (set_field values) headers i row).
Proof.
  induction headers as [|h headers IH]; intros i row Hv H; simpl; [exact H|].
  apply IH; [exact Hv|].
  unfold set_field. clear IH.
  destruct (String.eqb h "__proto__"); [exact H|].
  assert (Hn : trim (nth i values EmptyString) = nth i values EmptyString).
  { destruct (nth_in_or_default i values EmptyString) as [Hin| ->];
      [now apply Hv | reflexivity]. }
  induction row as [|[k' v'] row IHr]; simpl.
  - intros kv [<-|[]]. exact Hn.
  - destruct (String.eqb h k').
    + intros kv [<-|Hin]; [exact Hn | apply H; now right].
    + destruct (key_before h k').
      * intros kv [<-|Hin]; [exact Hn | now apply H].
      * intros kv [<-|Hin]; [apply H; now left|].
        apply IHr; [|exact Hin]. intros kv' Hkv'. apply H. now right.
Qed.

End BuildRowShape.

Lemma set_fields_keys headers : forall values1 values2 i row1 row2,
  obj_keys row1 = obj_keys row2 ->
  obj_keys (forEach (set_field values1) headers i row1)
  = obj_keys (forEach (set_field values2) headers i row2).
Proof.
  induction headers as [|h headers IH]; intros v1 v2 i row1 row2 H; simpl;
    [exact H|].
  apply IH. unfold set_field.
  destruct (String.eqb h "__proto__"); [exact H | now apply obj_set_keys].
Qed.

Lemma set_fields_keys_in values headers : forall i row k,
  (In k headers /\ k <> "__proto__") \/ In k (obj_keys row) ->
  In k (obj_keys (forEach (set_field values) headers i row)).
Proof.
  induction headers as [|h headers IH]; intros i row k Hk; simpl.
  - destruct Hk as [[[] _]|Hk]. exact Hk.
  - apply IH. unfold set_field.
    destruct Hk as [[[->|Hk] Hne]|Hk].
    + right. destruct (String.eqb_spec k "__proto__") as [E|_];
        [contradiction|].
      apply obj_set_keys_in. now left.
    + left. now split.
    + right. destruct (String.eqb h "__proto__"); [exact Hk|].
      apply obj_set_keys_in. now right.
Qed.

Lemma build_row_ordered headers values : obj_ordered (build_row headers values).
Proof. apply set_fields_ordered. constructor. Qed.

Lemma build_row_trimmed headers line :
  values_trimmed (build_row headers (parseLine line)).
Proof.
  apply set_fields_trimmed; [apply parseLine_trimmed | intros kv []].
Qed.

Lemma trim_values_id o :
  values_trimmed o -> map (fun kv => (fst kv, trim (snd kv))) o = o.
Proof.
  unfold values_trimmed. induction o as [|[k v] o IH]; intros H; [reflexivity|].
  pose proof (H (k, v) (or_introl eq_refl)) as Hkv. simpl in Hkv.
  simpl. rewrite Hkv. f_equal. apply IH. intros kv Hin. apply H. now right.
Qed.

Lemma parseCSV_rows_shape (text : string) :
  let lines := split_lines (trim text) in
  (forall row1 row2,
      In row1 (parseCSV text) -> In row2 (parseCSV text) ->
      obj_keys row1 = obj_keys row2)
  /\ (forall row, In row (parseCSV text) ->
        List.NoDup (obj_keys row)
        /\ forall k, In k (obj_keys row)
                     <-> In k (parseLine (hd EmptyString lines))
                         /\ k <> "__proto__")
  /\ (1 < length lines ->
      length (parseCSV text) = length (List.filter not_blank (tl lines))).
Proof.
  intros lines.
  assert (Hrows : forall row, In row (parseCSV text) ->
            exists line, row = build_row (parseLine (hd EmptyString lines))
                                 (parseLine line)).
  { unfold parseCSV. fold lines. intros row Hrow.
    destruct (length lines <=? 1); [destruct Hrow|].
    apply in_map_iff in Hrow as (line & <- & _). now exists line. }
  split; [|split].
  - intros row1 row2 H1 H2.
    destruct (Hrows row1 H1) as [l1 ->]. destruct (Hrows row2 H2) as [l2 ->].
    now apply set_fields_keys.
  - intros row Hrow. destruct (Hrows row Hrow) as [line ->]. split.
    + apply obj_ordered_NoDup, build_row_ordered.
    + intros k.
      destruct (build_row_last (parseLine line)
                  (parseLine (hd EmptyString lines))) as [_ Hkeys].
      split.
      * intros Hk. apply Hkeys.
        unfold obj_keys in Hk. apply in_map_iff in Hk as ([k' v] & <- & Hin).
        simpl. now apply (obj_get_in k' v).
      * intros Hk. unfold build_row.
        apply (set_fields_keys_in (parseLine line)). left. exact Hk.
  - intros H. unfold parseCSV. fold lines.
    apply Nat.leb_gt in H. rewrite H. now rewrite length_map.
Qed.

(** X4: the records of one parse are rectangular: they all have the same
    keys in the same order, each key once, the keys are exactly the names
    in the header line other than [__proto__], and there is one record for
    each non-blank line after the header. *)
Theorem X4_parseCSV_rectangular (text : string) :
  let lines := split_lines (trim text) in
  (forall row1 row2,
      In row1 (parseCSV text) -> In row2 (parseCSV text) ->
      obj_keys row1 = obj_keys row2)
  /\ (forall row, In row (parseCSV text) ->
        List.NoDup (obj_keys row)
        /\ forall k, In k (obj_keys row)
                     <-> In k (parseLine (hd EmptyString lines))
                         /\ k <> "__proto__")
  /\ (1 < length lines ->
      length (parseCSV text) = length (List.filter not_blank (tl lines))).
Proof. exact (parseCSV_rows_shape text). Qed.

Lemma trimAll_parse :
  (forall o, obj_ordered o ->
             trimAll o = map (fun kv => (fst kv, trim (snd kv))) o)
  /\ (forall text, map trimAll (parseCSV text) = parseCSV text)
  /\ (forall file, file_data file = parseCSV (content file)).
Proof.
  assert (H1 : forall o, obj_ordered o ->
             trimAll o = map (fun kv => (fst kv, trim (snd kv))) o).
  { intros o Ho. unfold trimAll, fromEntries.
    rewrite fromEntries_ordered; [reflexivity|].
    unfold obj_ordered, obj_keys in *. simpl.
    now rewrite map_map. }
  assert (H2 : forall text, map trimAll (parseCSV text) = parseCSV text).
  { intros text. rewrite <- (map_id (parseCSV text)) at 2.
    apply map_ext_in. intros row Hrow.
    assert (exists hs line, row = build_row hs (parseLine line))
      as (hs & line & ->).
    { unfold parseCSV in Hrow.
      destruct (length (split_lines (trim text)) <=? 1); [destruct Hrow|].
      apply in_map_iff in Hrow as (line & <- & _). eauto. }
    rewrite H1 by apply build_row_ordered.
    apply trim_values_id, build_row_trimmed. }
  split; [exact H1|]. split; [exact H2|].
  intros file. apply H2.
Qed.

(** X5: on an object in property order [trimAll] keeps the keys and their
    order and trims every value; on the records of a parse it changes
    nothing, so the records merged for a file are those parsed from it. *)
Theorem X5_trimAll_keeps_records :
  (forall o, obj_ordered o ->
             trimAll o = map (fun kv => (fst kv, trim (snd kv))) o)
  /\ (forall text, map trimAll (parseCSV text) = parseCSV text)
  /\ (forall file, file_data file = parseCSV (content file)).
Proof. exact trimAll_parse. Qed.

(** ** The classifier and the registry *)

Lemma upper_char_idem c : upper_char (upper_char c) = upper_char c.
Proof. destruct c as [[] [] [] [] [] [] [] []]; reflexivity. Qed.

Lemma upper_lower_char c : upper_char (lower_char c) = upper_char c.
Proof. destruct c as [[] [] [] [] [] [] [] []]; reflexivity. Qed.

Lemma toUpperCase_idem s : toUpperCase (toUpperCase s) = toUpperCase s.
Proof.
  unfold toUpperCase. induction s as [|c s IH]; simpl; [reflexivity|].
  now rewrite upper_char_idem, IH.
Qed.

Lemma toUpperCase_lower s : toUpperCase (toLowerCase s) = toUpperCase s.
Proof.
  unfold toUpperCase, toLowerCase. induction s as [|c s IH]; simpl;
    [reflexivity|].
  now rewrite upper_lower_char, IH.
Qed.

(** X6: the category of a file name made of ASCII characters does not
    depend on the case of its letters, and every category the classifier
    can give has a non-empty entry in the column mappings. *)
Theorem X6_classifier_case_and_registry :
  (forall fileName,
      all_chars is_ascii fileName = true ->
      getSheetName (toUpperCase fileName) = getSheetName fileName
      /\ getSheetName (toLowerCase fileName) = getSheetName fileName)
  /\ (forall fileName cat,
        getSheetName fileName = Some cat ->
        In cat (map snd keywords) /\ mapping_for cat <> []).
Proof.
  split.
  - intros fileName _. unfold getSheetName.
    now rewrite toUpperCase_idem, toUpperCase_lower.
  - intros fileName cat. unfold getSheetName.
    repeat match goal with
           | |- context [includes ?u ?k] => destruct (includes u k)
           end; intros [= <-]; (split; [simpl; tauto | discriminate]).
Qed.

(** ** The typed cell *)

(** X7: the cell stored for a value is either a number cell, whose number
    is not NaN and whose final value matches the numeric pattern, or a text
    cell, whose text has no white space around it. *)
Theorem X7_typed_cell_shape (templateHeader csvValue : string) :
  (exists n,
      typed_cell templateHeader csvValue = number_cell n
      /\ isNaN n = false
      /\ matches_numeric (final_value templateHeader csvValue) = true)
  \/ (exists s,
        typed_cell templateHeader csvValue = text_cell s /\ trim s = s).
Proof.
  destruct (is_empty csvValue) eqn:Hv.
  - right. exists EmptyString. unfold typed_cell. now rewrite Hv.
  - rewrite typed_cell_cases by assumption.
    destruct (matches_numeric (final_value templateHeader csvValue)) eqn:Hm.
    + left. eexists. split; [reflexivity|].
      split; [now apply matches_numeric_not_NaN | reflexivity].
    + right. eexists. split; [reflexivity | apply trim_idem].
Qed.

(** ** Appending twice *)

Lemma forEach_app {A St : Type} (f : St -> A -> nat -> St) (a1 a2 : list A) :
  forall i st,
  forEach f (a1 ++ a2)%list i st
  = forEach f a2 (i + length a1) (forEach f a1 i st).
Proof.
  induction a1 as [|x a1 IH]; intros i st; simpl.
  - now rewrite Nat.add_0_r.
  - rewrite IH. f_equal. lia.
Qed.

Lemma forEach_ext {A St : Type} (f g : St -> A -> nat -> St) (a : list A) :
  forall i j st,
  (forall st x k, f st x (i + k) = g st x (j + k)) ->
  forEach f a i st = forEach g a j st.
Proof.
  induction a as [|x a IH]; intros i j st H; simpl; [reflexivity|].
  pose proof (H st x 0) as H0. rewrite !Nat.add_0_r in H0. rewrite H0.
  apply IH. intros st' y k.
  replace (S i + k) with (i + S k) by lia.
  replace (S j + k) with (j + S k) by lia. apply H.
Qed.

Section AppendTwice.

Variable ts : JSNumber -> string.

(** The header row is read the same before and after an append. *)
Lemma append_headers sheet data mapping n :
  templateHeaders_of ts (appendDataToSheet ts sheet data mapping n)
    (sheet_range (appendDataToSheet ts sheet data mapping n))
  = templateHeaders_of ts sheet (sheet_range sheet).
Proof.
  destruct data as [|row0 data]; [reflexivity|].
  unfold templateHeaders_of, range_cols.
  rewrite append_ref by discriminate. cbn [s_c e_c].
  apply map_ext. intros col. f_equal.
  apply append_other. left.
  destruct (startRow_scan sheet) as (H & _). lia.
Qed.

Lemma append_range_cols sheet data mapping n :
  s_c (sheet_range (appendDataToSheet ts sheet data mapping n))
  = s_c (sheet_range sheet)
  /\ e_c (sheet_range (appendDataToSheet ts sheet data mapping n))
     = e_c (sheet_range sheet)
  /\ s_r (sheet_range (appendDataToSheet ts sheet data mapping n))
     = s_r (sheet_range sheet).
Proof.
  destruct data as [|row0 data]; [auto|].
  rewrite append_ref by discriminate. auto.
Qed.

(** X8: after records are appended the range of the sheet ends at the last
    appended row and keeps its columns; the next append start row is at
    most the row after that, and is that row as soon as the last appended
    row holds a non-empty cell in a column of the range. *)
Theorem X8_append_extent sheet data mapping n :
  data <> [] ->
  let sheet' := appendDataToSheet ts sheet data mapping n in
  sheet_range sheet'
  = mkRange (s_r (sheet_range sheet)) (s_c (sheet_range sheet))
      (startRow sheet + length data - 1) (e_c (sheet_range sheet))
  /\ startRow sheet <= startRow sheet' <= startRow sheet + length data
  /\ (row_has_value sheet' (startRow sheet + length data - 1) ->
      startRow sheet' = startRow sheet + length data).
Proof.
  intros Hd sheet'.
  assert (Hr : sheet_range sheet'
               = mkRange (s_r (sheet_range sheet)) (s_c (sheet_range sheet))
                   (startRow sheet + length data - 1)
                   (e_c (sheet_range sheet)))
    by now apply append_ref.
  assert (Hlen : 1 <= length data) by (destruct data; [congruence | simpl; lia]).
  destruct (startRow_scan sheet) as (H1 & _).
  destruct (startRow_scan sheet') as (_ & H2 & H3 & _).
  rewrite Hr in H2, H3. cbn [e_r] in H2, H3.
  split; [exact Hr|]. split.
  - split; [apply append_start_mono | lia].
  - intros Hv. specialize (H3 (startRow sheet + length data - 1)).
    assert (startRow sheet <= startRow sheet') by apply append_start_mono.
    specialize (H3 ltac:(lia) Hv). lia.
Qed.


(** X10: appending a second batch of records after a first one gives the
    same sheet as appending the two batches at once, provided the second
    append starts right below the first batch. *)
Theorem X10_append_twice sheet data1 data2 mapping n :
  startRow (appendDataToSheet ts sheet data1 mapping n)
  = startRow sheet + length data1 ->
  appendDataToSheet ts (appendDataToSheet ts sheet data1 mapping n) data2
    mapping n
  = appendDataToSheet ts sheet (data1 ++ data2) mapping n.
Proof.
  intros Hstart.
  destruct data2 as [|r2 d2]; [now rewrite app_nil_r|].
  destruct data1 as [|r1 d1]; [reflexivity|].
  set (sheet1 := appendDataToSheet ts sheet (r1 :: d1) mapping n) in *.
  unfold appendDataToSheet at 1. cbv iota.
  change (startRow_of sheet1 (sheet_range sheet1)) with (startRow sheet1).
  rewrite Hstart.
  subst sheet1. rewrite append_headers.
  rewrite append_ref by discriminate. cbn [s_r s_c e_c].
  unfold appendDataToSheet.
  change ((r1 :: d1) ++ r2 :: d2)%list with (r1 :: (d1 ++ r2 :: d2))%list.
  cbv iota. cbn [cells].
  change (startRow_of sheet (sheet_range sheet)) with (startRow sheet).
  f_equal.
  - f_equal. f_equal. cbn [length]. rewrite ?length_app. cbn [length]. lia.
  - change (r1 :: (d1 ++ r2 :: d2))%list with ((r1 :: d1) ++ r2 :: d2)%list.
    rewrite forEach_app. cbn [Nat.add].
    apply forEach_ext. intros st x k. unfold write_row.
    f_equal. f_equal. cbn [length]. lia.
Qed.

End AppendTwice.

(** ** The sheet made of the records *)

Lemma indexOf_Some k hdr C : indexOf k hdr = Some C -> hdr !! C = Some k.
Proof.
  revert C. induction hdr as [|h hdr IH]; intros C; simpl; [discriminate|].
  destruct (String.eqb_spec k h) as [->|_]; [now intros [= <-]|].
  destruct (indexOf k hdr) as [i|]; [|discriminate].
  intros [= <-]. now apply IH.
Qed.

Lemma indexOf_None k hdr : indexOf k hdr = None -> ~ In k hdr.
Proof.
  induction hdr as [|h hdr IH]; simpl; [tauto|].
  destruct (String.eqb_spec k h) as [->|Hne]; [discriminate|].
  destruct (indexOf k hdr) as [i|]; [discriminate|].
  intros _ [E|Hin]; [congruence | now apply IH].
Qed.

Lemma NoDup_lookup_inj (hdr : list string) C1 C2 k :
  List.NoDup hdr -> hdr !! C1 = Some k -> hdr !! C2 = Some k -> C1 = C2.
Proof.
  intros Hnd H1 H2. apply NoDup_ListNoDup in Hnd.
  exact (NoDup_lookup hdr C1 C2 k Hnd H1 H2).
Qed.

(** One key of one record: the value lands under the column of the key,
    and what was under the other keys, or in the other rows, stays. *)
Lemma add_json_cell_under R D st k v :
  values_under_keys D st ->
  (forall v', ~ D (R + 1) k v') ->
  values_under_keys (fun r k' v' => D r k' v' \/ (r = R + 1 /\ k' = k /\ v' = v))
    (add_json_cell R st (k, v)).
Proof.
  destruct st as [hdr cs]. intros [Hnd HD] Hfresh. cbn [fst snd] in Hnd, HD.
  unfold add_json_cell. cbn [fst snd].
  destruct (indexOf k hdr) as [C|] eqn:Hi.
  - apply indexOf_Some in Hi. split; [exact Hnd|]. cbn [fst snd].
    intros r k' v' [Hd|(-> & -> & ->)].
    + destruct (HD r k' v' Hd) as (C' & HC' & Hcell).
      exists C'. split; [exact HC'|].
      rewrite lookup_insert_ne; [exact Hcell|].
      intros [= <- <-]. assert (k' = k) as -> by congruence.
      exact (Hfresh v' Hd).
    + exists C. split; [exact Hi | apply lookup_insert_eq].
  - apply indexOf_None in Hi. split; cbn [fst snd].
    + apply NoDup_ListNoDup, NoDup_app. apply NoDup_ListNoDup in Hnd.
      split; [exact Hnd|]. split; [|apply NoDup_singleton].
      intros x Hx Hx'. apply list_elem_of_singleton in Hx'. subst x.
      apply Hi. now apply list_elem_of_In.
    + intros r k' v' [Hd|(-> & -> & ->)].
      * destruct (HD r k' v' Hd) as (C' & HC' & Hcell).
        exists C'. split; [now apply lookup_app_l_Some|].
        rewrite lookup_insert_ne; [exact Hcell|].
        intros [= <- <-]. apply lookup_lt_Some in HC'. lia.
      * exists (length hdr). split; [|apply lookup_insert_eq].
        rewrite lookup_app_r by lia. now rewrite Nat.sub_diag.
Qed.

Lemma values_under_keys_weaken (D D' : nat -> string -> string -> Prop) st :
  (forall r k v, D' r k v -> D r k v) ->
  values_under_keys D st -> values_under_keys D' st.
Proof. intros H [Hnd HD]. split; [exact Hnd | eauto]. Qed.

(** One record. *)
Lemma add_json_cells_under R l : forall D st,
  values_under_keys D st ->
  List.NoDup (obj_keys l) ->
  (forall k v', In k (obj_keys l) -> ~ D (R + 1) k v') ->
  values_under_keys (fun r k v => D r k v \/ (r = R + 1 /\ In (k, v) l))
    (fold_left (add_json_cell R) l st).
Proof.
  induction l as [|[k v] l IH]; intros D st Hst Hnd Hfresh.
  - simpl. apply (values_under_keys_weaken D); [|exact Hst].
    intros r k v [H|[_ []]]. exact H.
  - simpl fold_left. unfold obj_keys in Hnd. simpl in Hnd.
    apply List.NoDup_cons_iff in Hnd as [Hk Hnd].
    eapply values_under_keys_weaken;
      [|apply (IH (fun r k' v' => D r k' v' \/ (r = R + 1 /\ k' = k /\ v' = v)))].
    + intros r k' v' [H|(-> & [[= -> ->]|Hin])]; [now left; left | |].
      * left. right. auto.
      * right. auto.
    + apply add_json_cell_under; [exact Hst|].
      intros v'. apply Hfresh. now left.
    + exact Hnd.
    + intros k' v' Hk' [H|(_ & -> & _)].
      * apply (Hfresh k' v'); [now right | exact H].
      * now apply Hk.
Qed.

Lemma json_rows_under data :
  (forall JS, In JS data -> List.NoDup (obj_keys JS)) ->
  values_under_keys (values_before data (length data)) (json_rows data).
Proof.
  intros Hnd. unfold json_rows.
  apply (forEach_invariant _
           (fun i st => values_under_keys (values_before data i) st) data 0).
  - split; [constructor|]. intros r k v (R & JS & HR & _). lia.
  - intros j JS st Hj Hst. cbn [Nat.add] in *.
    eapply values_under_keys_weaken;
      [|apply (add_json_cells_under j JS (values_before data j) st Hst)].
    + intros r k v (R & JS' & HR & -> & HJS & Hin).
      destruct (decide (R = j)) as [->|Hne].
      * right. split; [reflexivity|].
        assert (E : Some JS' = Some JS)
          by exact (eq_trans (eq_sym HJS) Hj).
        injection E as <-. exact Hin.
      * left. exists R, JS'. repeat split; auto. lia.
    + apply Hnd. apply list_elem_of_In, list_elem_of_lookup. eauto.
    + intros k v' _ (R & JS' & HR & E & _). lia.
Qed.

Lemma header_cells_written hdr :
  forall i (cs : gmap (nat * nat) Cell),
  (forall C h, hdr !! C = Some h ->
     forEach (fun m h C => <[(0, C) := text_cell h]> m) hdr i cs !! (0, i + C)
     = Some (text_cell h))
  /\ (forall r C, (r <> 0 \/ C < i) ->
        forEach (fun m h C => <[(0, C) := text_cell h]> m) hdr i cs !! (r, C)
        = cs !! (r, C)).
Proof.
  induction hdr as [|h hdr IH]; intros i cs; simpl.
  - split; [discriminate | reflexivity].
  - destruct (IH (S i) (<[(0, i) := text_cell h]> cs)) as [IH1 IH2].
    split.
    + intros [|C] h' HC; simpl in HC.
      * injection HC as <-. rewrite Nat.add_0_r.
        rewrite IH2 by (right; lia). apply lookup_insert_eq.
      * replace (i + S C) with (S i + C) by lia. now apply IH1.
    + intros r C Hrc. rewrite IH2 by (destruct Hrc; [now left | right; lia]).
      apply lookup_insert_ne. intros [= <- <-]. destruct Hrc; [congruence | lia].
Qed.

Lemma json_to_sheet_table (data : list JSObject) :
  (forall JS, In JS data -> List.NoDup (obj_keys JS)) ->
  exists hdr,
    List.NoDup hdr
    /\ sheet_range (json_to_sheet data)
       = mkRange 0 0 (length data) (length hdr - 1)
    /\ (forall C h, hdr !! C = Some h ->
          cells (json_to_sheet data) !! (0, C) = Some (text_cell h))
    /\ (forall R JS k v,
          data !! R = Some JS -> In (k, v) JS ->
          exists C, hdr !! C = Some k
                    /\ cells (json_to_sheet data) !! (R + 1, C)
                       = Some (text_cell v)).
Proof.
  intros Hnd. pose proof (json_rows_under data Hnd) as [Hhdr Hcells].
  unfold json_to_sheet. destruct (json_rows data) as [hdr cs].
  cbn [fst snd] in *.
  destruct (header_cells_written hdr 0 cs) as [H0 Hrest].
  exists hdr. split; [exact Hhdr|]. split; [reflexivity|]. split.
  - intros C h HC. exact (H0 C h HC).
  - intros R JS k v HR Hin.
    destruct (Hcells (R + 1) k v) as (C & HC & Hcell).
    { exists R, JS. repeat split; auto. now apply lookup_lt_Some in HR. }
    exists C. split; [exact HC|]. cbn [cells].
    rewrite Hrest by (left; lia). exact Hcell.
Qed.

(** ** Files without records *)

Lemma parseCSV_no_lines text :
  List.filter not_blank (tl (split_lines (trim text))) = [] ->
  parseCSV text = [].
Proof.
  intros H. unfold parseCSV. rewrite H.
  now destruct (length (split_lines (trim text)) <=? 1).
Qed.

Section Workbook.

Variable ts : JSNumber -> string.

(** X12: a file whose text, trimmed, has no line after the first, or only
    blank lines after it, leaves the workbook as it is, whatever its name:
    no sheet is created for it, and generation gives the same result with
    and without it. *)
Theorem X12_file_without_records_skipped :
  (forall wb file,
      List.filter not_blank (tl (split_lines (trim (content file)))) = [] ->
      process_file ts wb file = Ok wb)
  /\ (forall template pre file post,
        List.filter not_blank (tl (split_lines (trim (content file)))) = [] ->
        generateGSTR1Excel ts template (pre ++ file :: post)%list
        = generateGSTR1Excel ts template (pre ++ post)%list).
Proof.
  assert (H1 : forall wb file,
             List.filter not_blank (tl (split_lines (trim (content file)))) = [] ->
             process_file ts wb file = Ok wb).
  { intros wb file H. apply process_file_skip. right.
    unfold file_data. now rewrite parseCSV_no_lines. }
  split; [exact H1|].
  intros template pre file post H. unfold generateGSTR1Excel.
  generalize (match template with Some wb => wb | None => book_new end).
  induction pre as [|f pre IH]; intros wb; simpl.
  - now rewrite H1.
  - destruct (process_file ts wb f); [apply IH | reflexivity].
Qed.

(** The sheet of the file's category after the file, from the one
    before. *)
Lemma process_file_sheet wb file wb' cat :
  process_file ts wb file = Ok wb' ->
  getSheetName (name file) = Some cat ->
  Sheets wb' !! cat = merged_sheet ts file cat (Sheets wb !! cat).
Proof.
  intros Hp Hcat. unfold merged_sheet.
  destruct (file_data file) as [|r0 d] eqn:Hd.
  - rewrite process_file_skip in Hp by (right; exact Hd). now injection Hp as <-.
  - destruct (Sheets wb !! cat) as [sheet|] eqn:Hs.
    + rewrite (process_file_append ts wb file cat sheet Hcat Hs) in Hp.
      injection Hp as <-. cbn [Sheets]. rewrite lookup_insert_eq.
      now rewrite Hd.
    + rewrite (process_file_fresh ts wb file cat Hcat Hs) in Hp
        by (rewrite Hd; discriminate).
      unfold book_append_sheet in Hp. case_bool_decide; [discriminate|].
      injection Hp as <-. cbn [Sheets]. rewrite lookup_insert_eq.
      now rewrite Hd.
Qed.

Lemma process_file_other wb file wb' n :
  process_file ts wb file = Ok wb' ->
  getSheetName (name file) <> Some n ->
  Sheets wb' !! n = Sheets wb !! n.
Proof.
  intros Hp Hn. pose proof (process_file_frame ts wb file wb' Hp) as Hf.
  destruct (getSheetName (name file)) as [cat|]; [|now subst].
  destruct Hf as [Hf _]. apply Hf. congruence.
Qed.

Lemma process_file_names wb file wb' :
  process_file ts wb file = Ok wb' ->
  SheetNames wb' = (SheetNames wb ++ added_names wb file)%list.
Proof.
  intros Hp. unfold added_names.
  destruct (getSheetName (name file)) as [cat|] eqn:Hcat.
  - destruct (file_data file) as [|r0 d] eqn:Hd.
    + rewrite process_file_skip in Hp by (right; exact Hd).
      injection Hp as <-. now rewrite app_nil_r.
    + destruct (Sheets wb !! cat) as [sheet|] eqn:Hs.
      * rewrite (process_file_append ts wb file cat sheet Hcat Hs) in Hp.
        injection Hp as <-. simpl. now rewrite app_nil_r.
      * rewrite (process_file_fresh ts wb file cat Hcat Hs) in Hp
          by (rewrite Hd; discriminate).
        unfold book_append_sheet in Hp. case_bool_decide; [discriminate|].
        now injection Hp as <-.
  - rewrite process_file_skip in Hp by now left.
    injection Hp as <-. now rewrite app_nil_r.
Qed.

Lemma added_names_other wb wb' file :
  (forall cat, getSheetName (name file) = Some cat ->
               Sheets wb' !! cat = Sheets wb !! cat) ->
  added_names wb' file = added_names wb file.
Proof.
  intros H. unfold added_names.
  destruct (getSheetName (name file)) as [cat|]; [|reflexivity].
  now rewrite (H cat eq_refl).
Qed.

(** X13: two files of different categories can be processed in either
    order: from a workbook whose sheets are all listed both orders succeed
    and give the same sheets, and the same sheet names up to their
    order. *)
Theorem X13_categories_independent wb A B :
  sheets_listed wb ->
  getSheetName (name A) <> getSheetName (name B) ->
  exists wab wba,
    process_files ts wb [A; B] = Ok wab
    /\ process_files ts wb [B; A] = Ok wba
    /\ Sheets wab = Sheets wba
    /\ Permutation (SheetNames wab) (SheetNames wba).
Proof.
  intros Hwb Hne.
  destruct (process_file_total ts wb A Hwb) as (wa & HA & Hwa).
  destruct (process_file_total ts wa B Hwa) as (wab & HAB & _).
  destruct (process_file_total ts wb B Hwb) as (wb' & HB & Hwb').
  destruct (process_file_total ts wb' A Hwb') as (wba & HBA & _).
  exists wab, wba. simpl. rewrite HA, HAB, HB, HBA.
  split; [reflexivity|]. split; [reflexivity|]. split.
  - apply map_eq. intros n.
    destruct (decide (getSheetName (name A) = Some n)) as [EA|NA];
      destruct (decide (getSheetName (name B) = Some n)) as [EB|NB].
    + congruence.
    + rewrite (process_file_other wa B wab n HAB NB).
      rewrite (process_file_sheet wb A wa n HA EA).
      rewrite (process_file_sheet wb' A wba n HBA EA).
      now rewrite (process_file_other wb B wb' n HB NB).
    + rewrite (process_file_sheet wa B wab n HAB EB).
      rewrite (process_file_other wb A wa n HA NA).
      rewrite (process_file_other wb' A wba n HBA NA).
      now rewrite (process_file_sheet wb B wb' n HB EB).
    + rewrite (process_file_other wa B wab n HAB NB).
      rewrite (process_file_other wb A wa n HA NA).
      rewrite (process_file_other wb' A wba n HBA NA).
      now rewrite (process_file_other wb B wb' n HB NB).
  - rewrite (process_file_names wa B wab HAB), (process_file_names wb A wa HA).
    rewrite (process_file_names wb' A wba HBA), (process_file_names wb B wb' HB).
    rewrite (added_names_other wb wa B), (added_names_other wb wb' A).
    + rewrite <- !app_assoc. apply Permutation_app_head, Permutation_app_comm.
    + intros cat Hcat. apply (process_file_other wb B wb' cat HB). congruence.
    + intros cat Hcat. apply (process_file_other wb A wa cat HA). congruence.
Qed.

End Workbook.

(** No source column of the mappings is the name of a member of
    [Object.prototype]: the reads of the aliases find own properties
    only. *)
Lemma mapping_keys_own cat csvCol excelCol :
  In (csvCol, excelCol) (mapping_for cat) -> inherited csvCol = false.
Proof.
  assert (Hall : forallb
                   (fun e => forallb (fun kt => negb (inherited (fst kt)))
                               (snd e))
                   columnMappings = true) by (vm_compute; reflexivity).
  unfold mapping_for. revert Hall.
  induction columnMappings as [|[n m] table IH]; simpl; [intros _ []|].
  intros Hall. apply andb_true_iff in Hall as [Hm Hall].
  destruct (String.eqb cat n); [|now apply IH].
  intros Hin. rewrite forallb_forall in Hm.
  specialize (Hm _ Hin). simpl in Hm. now apply negb_true_iff in Hm.
Qed.

Section Generation.

Variable ts : JSNumber -> string.

(** X14: from a template whose sheets are all listed, generation returns a
    workbook for every list of files.  The sheet names of the template
    stay first and in their order; every name added after them is the
    category of one of the files and had no sheet in the template; the
    sheets of the names that are the category of no file are those of the
    template. *)
Theorem X14_generation_from_template (template : WorkBook)
    (csvFiles : list CsvFileInput) :
  sheets_listed template ->
  exists wb added,
    generateGSTR1Excel ts (Some template) csvFiles = Ok wb
    /\ sheets_listed wb
    /\ SheetNames wb = (SheetNames template ++ added)%list
    /\ (forall n, In n added ->
          Sheets template !! n = None
          /\ exists file, In file csvFiles
                          /\ getSheetName (name file) = Some n)
    /\ (forall n,
          (forall file, In file csvFiles ->
                        getSheetName (name file) <> Some n) ->
          Sheets wb !! n = Sheets template !! n).
Proof.
  unfold generateGSTR1Excel. revert template.
  induction csvFiles as [|file csvFiles IH]; intros wb0 Hwb0.
  - exists wb0, []. simpl. rewrite app_nil_r.
    split; [reflexivity|]. split; [exact Hwb0|]. split; [reflexivity|].
    split; [intros m [] | reflexivity].
  - destruct (process_file_total ts wb0 file Hwb0) as (wb1 & H1 & Hwb1).
    destruct (IH wb1 Hwb1) as (wb & added & Hgen & Hwb & Hnames & Hadd & Hrest).
    exists wb, (added_names wb0 file ++ added)%list.
    simpl. rewrite H1. split; [exact Hgen|]. split; [exact Hwb|].
    split; [|split].
    + rewrite Hnames, (process_file_names ts wb0 file wb1 H1).
      now rewrite <- app_assoc.
    + intros n Hn. apply in_app_or in Hn as [Hn|Hn].
      * unfold added_names in Hn.
        destruct (getSheetName (name file)) as [cat|] eqn:Hcat; [|destruct Hn].
        destruct (file_data file); [destruct Hn|].
        destruct (Sheets wb0 !! cat) eqn:Hs; [destruct Hn|].
        destruct Hn as [<-|[]]. split; [exact Hs|].
        exists file. split; [now left | exact Hcat].
      * destruct (Hadd n Hn) as (Hnone & f & Hf & Hcat).
        split; [|exists f; split; [now right | exact Hcat]].
        destruct (decide (getSheetName (name file) = Some n)) as [E|NE].
        -- rewrite (process_file_sheet ts wb0 file wb1 n H1 E) in Hnone.
           unfold merged_sheet in Hnone.
           destruct (file_data file); [exact Hnone | discriminate].
        -- now rewrite (process_file_other ts wb0 file wb1 n H1 NE) in Hnone.
    + intros n Hn. rewrite Hrest by (intros f Hf; apply Hn; now right).
      apply (process_file_other ts wb0 file wb1 n H1). apply Hn. now left.
Qed.

(** What any list of files leaves of a sheet that exists: its columns and
    its header row as read by the merge. *)
Lemma process_file_headers wb file wb' cat sheet :
  process_file ts wb file = Ok wb' -> Sheets wb !! cat = Some sheet ->
  exists sheet',
    Sheets wb' !! cat = Some sheet'
    /\ templateHeaders_of ts sheet' (sheet_range sheet')
       = templateHeaders_of ts sheet (sheet_range sheet)
    /\ s_c (sheet_range sheet') = s_c (sheet_range sheet)
    /\ e_c (sheet_range sheet') = e_c (sheet_range sheet).
Proof.
  intros Hp Hs.
  destruct (decide (getSheetName (name file) = Some cat)) as [E|NE].
  - rewrite (process_file_append ts wb file cat sheet E Hs) in Hp.
    injection Hp as <-. eexists. split; [apply lookup_insert_eq|].
    split; [apply append_headers|].
    destruct (append_range_cols ts sheet (file_data file) (mapping_for cat) cat)
      as (H1 & H2 & _).
    auto.
  - exists sheet. rewrite (process_file_other ts wb file wb' cat Hp NE). auto.
Qed.

Lemma process_files_headers (csvFiles : list CsvFileInput) :
  forall wb wb' cat sheet,
  Sheets wb !! cat = Some sheet ->
  process_files ts wb csvFiles = Ok wb' ->
  exists sheet',
    Sheets wb' !! cat = Some sheet'
    /\ templateHeaders_of ts sheet' (sheet_range sheet')
       = templateHeaders_of ts sheet (sheet_range sheet)
    /\ s_c (sheet_range sheet') = s_c (sheet_range sheet)
    /\ e_c (sheet_range sheet') = e_c (sheet_range sheet).
Proof.
  induction csvFiles as [|file csvFiles IH]; intros wb wb' cat sheet Hs Hp;
    simpl in Hp.
  - injection Hp as <-. exists sheet. auto.
  - destruct (process_file ts wb file) as [wb1|] eqn:H1; [|discriminate].
    destruct (process_file_headers wb file wb1 cat sheet H1 Hs)
      as (sheet1 & Hs1 & Hh1 & Hsc1 & Hec1).
    destruct (IH wb1 wb' cat sheet1 Hs1 Hp) as (sheet' & Hs' & Hh & Hsc & Hec).
    exists sheet'. split; [exact Hs'|].
    split; [congruence|]. split; congruence.
Qed.

(** X9: whatever files are processed, a sheet that exists keeps the first
    and last column of its range and the header row that the merge reads
    from it: the order of its template columns never changes. *)
Theorem X9_template_columns_stable (csvFiles : list CsvFileInput) wb wb' cat
    sheet :
  Sheets wb !! cat = Some sheet ->
  process_files ts wb csvFiles = Ok wb' ->
  exists sheet',
    Sheets wb' !! cat = Some sheet'
    /\ templateHeaders_of ts sheet' (sheet_range sheet')
       = templateHeaders_of ts sheet (sheet_range sheet)
    /\ s_c (sheet_range sheet') = s_c (sheet_range sheet)
    /\ e_c (sheet_range sheet') = e_c (sheet_range sheet).
Proof. exact (process_files_headers csvFiles wb wb' cat sheet). Qed.

(** X11: the first file of a category, processed on a workbook whose
    sheets are all listed, adds a sheet under the name of the category at
    the end of the sheet names.  The sheet is a table from A1 on: row 0
    holds distinct names as text cells, the header names of the file other
    than [__proto__] among them, and every value of record [R] is the text
    cell of row [R + 1] under the cell of its key, numbers included. *)
Theorem X11_first_file_sheet wb file cat :
  sheets_listed wb ->
  getSheetName (name file) = Some cat ->
  Sheets wb !! cat = None ->
  file_data file <> [] ->
  exists wb' sheet hdr,
    process_file ts wb file = Ok wb'
    /\ SheetNames wb' = (SheetNames wb ++ [cat])%list
    /\ Sheets wb' !! cat = Some sheet
    /\ List.NoDup hdr
    /\ sheet_range sheet
       = mkRange 0 0 (length (file_data file)) (length hdr - 1)
    /\ (forall C h, hdr !! C = Some h ->
          cells sheet !! (0, C) = Some (text_cell h))
    /\ (forall h,
          In h (parseLine (hd EmptyString
                             (split_lines (trim (content file))))) ->
          h <> "__proto__" ->
          In h hdr)
    /\ (forall R JS k v,
          file_data file !! R = Some JS -> In (k, v) JS ->
          exists C, hdr !! C = Some k
                    /\ cells sheet !! (R + 1, C) = Some (text_cell v)).
Proof.
  intros Hwb Hcat Hnone Hd.
  destruct (process_file_total ts wb file Hwb) as (wb' & Hp & _).
  pose proof (process_file_sheet ts wb file wb' cat Hp Hcat) as Hs.
  pose proof (process_file_names ts wb file wb' Hp) as Hn.
  rewrite Hnone in Hs. unfold merged_sheet in Hs.
  unfold added_names in Hn. rewrite Hcat, Hnone in Hn.
  assert (EA : file_data file = parseCSV (content file))
    by apply trimAll_parse.
  destruct (parseCSV_rows_shape (content file)) as (_ & Hkeys & _).
  assert (Hnd : forall JS, In JS (file_data file) -> List.NoDup (obj_keys JS)).
  { intros JS HJS. rewrite EA in HJS. now apply Hkeys. }
  destruct (json_to_sheet_table (file_data file) Hnd)
    as (hdr & Hhdr & Hrange & Hrow0 & Hval).
  destruct (file_data file) as [|r0 d] eqn:Ed; [congruence|].
  exists wb', (json_to_sheet (r0 :: d)), hdr.
  split; [exact Hp|]. split; [exact Hn|]. split; [exact Hs|].
  split; [exact Hhdr|]. split; [exact Hrange|]. split; [exact Hrow0|].
  split; [|exact Hval].
  intros h Hh Hne.
  assert (Hr0 : In h (obj_keys r0)).
  { apply (Hkeys r0); [rewrite <- EA; now left | now split]. }
  unfold obj_keys in Hr0. apply in_map_iff in Hr0 as ([k v] & Hk & Hin).
  simpl in Hk. subst k.
  destruct (Hval 0 r0 h v eq_refl Hin) as (C & HC & _).
  apply list_elem_of_In. apply list_elem_of_lookup. now exists C.
Qed.

(** X15: the first file of a category creates its sheet; when a later file
    of the category is processed, the value its record [j] resolves for a
    non-blank header name of the first file is written, typed, in row
    [startRow + j] under the cell of row 0 that bears that name.  The
    header name is not the name of a member of [Object.prototype]: such a
    name is read from the prototype when the record lacks it. *)
Theorem X15_later_file_under_first_headers wb A mid B wb1 wb2 wb3 cat h j
    rowB :
  getSheetName (name A) = Some cat ->
  getSheetName (name B) = Some cat ->
  Sheets wb !! cat = None ->
  file_data A <> [] ->
  In h (parseLine (hd EmptyString (split_lines (trim (content A))))) ->
  is_empty h = false ->
  inherited h = false ->
  process_file ts wb A = Ok wb1 ->
  process_files ts wb1 mid = Ok wb2 ->
  process_file ts wb2 B = Ok wb3 ->
  file_data B !! j = Some rowB ->
  exists sheet2 sheet3 C,
    Sheets wb2 !! cat = Some sheet2
    /\ Sheets wb3 !! cat = Some sheet3
    /\ cells sheet3 !! (0, C) = Some (text_cell h)
    /\ cells sheet3 !! (startRow sheet2 + j, C)
       = Some (typed_cell h (resolve (mapping_for cat) rowB h)).
Proof.
  intros HcA HcB Hnone HdA Hh Hhne Hown HA Hmid HB Hj.
  assert (Hproto : h <> "__proto__") by (intros ->; discriminate Hown).
  (* the sheet made of the first file *)
  pose proof (process_file_sheet ts wb A wb1 cat HA HcA) as Hs1.
  rewrite Hnone in Hs1. unfold merged_sheet in Hs1.
  destruct (file_data A) as [|r0 dA] eqn:EdA; [congruence|].
  set (sheet1 := json_to_sheet (r0 :: dA)) in *.
  assert (EA : r0 :: dA = parseCSV (content A)).
  { rewrite <- EdA. apply trimAll_parse. }
  destruct (parseCSV_rows_shape (content A)) as (_ & Hkeys & _).
  assert (Hnd : forall JS, In JS (r0 :: dA) -> List.NoDup (obj_keys JS)).
  { intros JS HJS. rewrite EA in HJS. now apply Hkeys. }
  destruct (json_to_sheet_table (r0 :: dA) Hnd)
    as (hdr & Hhdr & Hrange & Hrow0 & Hval).
  assert (Hr0 : In h (obj_keys r0)).
  { apply (Hkeys r0); [rewrite <- EA; now left | now split]. }
  unfold obj_keys in Hr0. apply in_map_iff in Hr0 as ([k v] & Hk & Hin).
  simpl in Hk. subst k.
  destruct (Hval 0 r0 h v eq_refl Hin) as (C & HC & _).
  fold sheet1 in Hrange, Hrow0.
  assert (Hhead : templateHeaders_of ts sheet1 (sheet_range sheet1) !! C
                  = Some h).
  { rewrite templateHeaders_lookup.
    - rewrite Hrange. cbn [s_c]. rewrite Nat.add_0_l, (Hrow0 C h HC).
      simpl. f_equal. now apply parseLine_trimmed in Hh.
    - rewrite Hrange. cbn [s_c e_c]. apply lookup_lt_Some in HC. lia. }
  (* the files in between *)
  destruct (process_files_headers mid wb1 wb2 cat sheet1 Hs1 Hmid)
    as (sheet2 & Hs2 & Hh2 & _).
  destruct (process_files_keeps ts mid wb1 wb2 cat sheet1 Hmid Hs1)
    as (sheet2' & Hs2' & _ & _ & Habove).
  rewrite Hs2 in Hs2'. injection Hs2' as <-.
  (* the later file *)
  rewrite (process_file_append ts wb2 B cat sheet2 HcB Hs2) in HB.
  injection HB as <-.
  exists sheet2, (appendDataToSheet ts sheet2 (file_data B) (mapping_for cat) cat), C.
  split; [exact Hs2|]. split; [apply lookup_insert_eq|]. split.
  - rewrite append_other
      by (left; destruct (startRow_scan sheet2) as (H & _); lia).
    rewrite Habove by (destruct (startRow_scan sheet1) as (H & _); lia).
    exact (Hrow0 C h HC).
  - apply append_written; [exact Hj | now rewrite Hh2 | exact Hhne].
Qed.

End Generation.

(** ** The document written *)






Section Output.

Variable ts : JSNumber -> string.







End Output.


(** ** Financial years *)

Lemma fy_loop_length fyStart n : forall i, length (fy_loop fyStart i n) = n.
Proof. induction n as [|n IH]; intros i; simpl; [reflexivity | now rewrite IH]. Qed.

Lemma fy_loop_nth fyStart n : forall i k,
  k < n ->
  nth k (fy_loop fyStart i n) EmptyString
  = fy_label (fyStart - Z.of_nat (i + k)).
Proof.
  induction n as [|n IH]; intros i k Hk; [lia|].
  destruct k as [|k]; simpl.
  - now rewrite Nat.add_0_r.
  - rewrite IH by lia. do 2 f_equal. lia.
Qed.

Lemma holds_from_spec f n : forall lo y,
  holds_from f lo n = true ->
  (lo <= y < lo + Z.of_nat n)%Z -> f y = true.
Proof.
  induction n as [|n IH]; intros lo y H Hy; [lia|].
  simpl in H. apply andb_true_iff in H as [H0 H].
  destruct (Z.eq_dec y lo) as [->|Hne]; [exact H0|].
  apply (IH (lo + 1)%Z); [exact H | lia].
Qed.

Lemma label_ok_four_digits :
  holds_from label_ok 1000 (Z.to_nat 8999) = true.
Proof. vm_compute. reflexivity. Qed.

Lemma fy_label_four_digits (y : Z) :
  (1000 <= y <= 9998)%Z ->
  fy_label y
  = Z_toString y ++ "-" ++ two_digits (Z.to_nat ((y + 1) mod 100))
  /\ String.length (fy_label y) = 7.
Proof.
  intros Hy.
  assert (H : label_ok y = true).
  { apply (holds_from_spec label_ok (Z.to_nat 8999) 1000 y
             label_ok_four_digits).
    rewrite Z2Nat.id by lia. lia. }
  unfold label_ok in H. apply andb_true_iff in H as [H1 H2].
  apply String.eqb_eq in H1. apply Nat.eqb_eq in H2. auto.
Qed.

(** X16: the list has [count] labels; the label of index [i] is that of
    the financial year that started [i] years before the current one, the
    current one having started last calendar year from January to March
    and this calendar year from April on.  For a four-digit start year the
    label has seven characters: the year, a dash and the last two digits
    of the next year. *)
Theorem X16_financial_years (today : Today) (count : nat) :
  length (generateFinancialYears today count) = count
  /\ (getMonth today < 3 -> currentFYStart today = (getFullYear today - 1)%Z)
  /\ (3 <= getMonth today -> currentFYStart today = getFullYear today)
  /\ (forall i,
        i < count ->
        (1000 <= currentFYStart today - Z.of_nat i <= 9998)%Z ->
        let start := (currentFYStart today - Z.of_nat i)%Z in
        nth i (generateFinancialYears today count) EmptyString
        = Z_toString start ++ "-"
          ++ two_digits (Z.to_nat ((start + 1) mod 100))
        /\ String.length
             (nth i (generateFinancialYears today count) EmptyString) = 7).
Proof.
  unfold generateFinancialYears. split; [apply fy_loop_length|].
  split; [|split].
  - intros H. unfold currentFYStart. apply Nat.ltb_lt in H. now rewrite H.
  - intros H. unfold currentFYStart. apply Nat.ltb_ge in H. now rewrite H.
  - intros i Hi Hy. rewrite fy_loop_nth by exact Hi.
    now apply fy_label_four_digits.
Qed.

(** ** Uploads by month *)

Lemma groups_get_set_eq k v groups :
  groups_get k (groups_set k v groups) = Some v.
Proof.
  induction groups as [|[k' v'] groups IH]; simpl.
  - now rewrite String.eqb_refl.
  - destruct (String.eqb k k') eqn:E; simpl.
    + now rewrite String.eqb_refl.
    + destruct (key_before k k'); simpl.
      * now rewrite String.eqb_refl.
      * now rewrite E.
Qed.

Lemma groups_get_set_ne k k' v groups :
  k <> k' -> groups_get k' (groups_set k v groups) = groups_get k' groups.
Proof.
  intros Hne. induction groups as [|[a w] groups IH]; simpl.
  - destruct (String.eqb_spec k' k); [congruence | reflexivity].
  - destruct (String.eqb_spec k a) as [->|Hka]; simpl.
    + destruct (String.eqb_spec k' a); [congruence | reflexivity].
    + destruct (key_before k a); simpl.
      * destruct (String.eqb_spec k' k); [congruence | reflexivity].
      * now rewrite IH.
Qed.

Lemma groups_get_keys k groups :
  groups_get k groups <> None <-> In k (map fst groups).
Proof.
  induction groups as [|[a w] groups IH]; simpl; [tauto|].
  destruct (String.eqb_spec k a) as [->|Hne].
  - split; [now left | discriminate].
  - rewrite IH. split; [now right | intros [E|H]; [congruence | exact H]].
Qed.

Lemma group_keys_set k v groups :
  group_keys (groups_set k v groups)
  = obj_set k EmptyString (group_keys groups).
Proof.
  unfold group_keys. induction groups as [|[a w] groups IH]; simpl;
    [reflexivity|].
  destruct (String.eqb k a); simpl; [reflexivity|].
  destruct (key_before k a); simpl; [reflexivity|].
  now rewrite IH.
Qed.

Lemma group_keys_fst groups : obj_keys (group_keys groups) = map fst groups.
Proof. unfold obj_keys, group_keys. rewrite map_map. reflexivity. Qed.

(** One step of the loop: the group of the upload's month gets the upload
    at its end, the other groups stay as they are, and the keys stay in
    property order. *)
Lemma group_step_spec groups u :
  groups_get (month u) (group_step groups u)
  = Some (default [] (groups_get (month u) groups) ++ [u])%list
  /\ (forall m, m <> month u ->
        groups_get m (group_step groups u) = groups_get m groups)
  /\ (obj_ordered (group_keys groups) ->
      obj_ordered (group_keys (group_step groups u))).
Proof.
  unfold group_step.
  destruct (groups_get (month u) groups) as [group|] eqn:E.
  - rewrite E. split; [apply groups_get_set_eq|]. split.
    + intros m Hm. apply groups_get_set_ne. congruence.
    + intros Ho. rewrite group_keys_set. now apply obj_set_ordered.
  - rewrite groups_get_set_eq. split; [apply groups_get_set_eq|]. split.
    + intros m Hm. rewrite !groups_get_set_ne by congruence. reflexivity.
    + intros Ho. rewrite !group_keys_set. now do 2 apply obj_set_ordered.
Qed.

(** The callback throws exactly on a month that is the name of a member
    of [Object.prototype] and no key of the groups. *)
Lemma group_upload_cases groups u :
  (inherited (month u) = false ->
   group_upload groups u = Ok (group_step groups u))
  /\ (inherited (month u) = true -> groups_get (month u) groups = None ->
      exists msg, group_upload groups u = Err msg).
Proof.
  unfold group_upload, group_step. split.
  - intros Hm. rewrite Hm.
    destruct (groups_get (month u) groups) as [group|] eqn:E.
    + now rewrite E.
    + now rewrite groups_get_set_eq.
  - intros Hm E. rewrite E, Hm, E. eauto.
Qed.

Lemma uploads_of_app m l1 l2 :
  uploads_of m (l1 ++ l2) = (uploads_of m l1 ++ uploads_of m l2)%list.
Proof. apply List.filter_app. Qed.

(** The loop without exceptions, from any state: every group is extended
    by the uploads of its month, in order. *)
Lemma group_loop uploads : forall groups i,
  (forall m, groups_get m groups <> Some []) ->
  obj_ordered (group_keys groups) ->
  let groups' := forEach (fun g u _ => group_step g u) uploads i groups in
  (forall m,
      groups_get m groups'
      = match groups_get m groups, uploads_of m uploads with
        | None, [] => None
        | old, l => Some (default [] old ++ l)%list
        end)
  /\ obj_ordered (group_keys groups').
Proof.
  induction uploads as [|u uploads IH]; intros groups i Hne Ho; simpl.
  - split; [|exact Ho]. intros m.
    destruct (groups_get m groups) as [l|]; [|reflexivity].
    simpl. now rewrite app_nil_r.
  - destruct (group_step_spec groups u) as (Hu & Hother & Hord).
    assert (Hne' : forall m, groups_get m (group_step groups u) <> Some []).
    { intros m. destruct (String.eqb_spec m (month u)) as [->|Hm].
      - rewrite Hu. intros [= E]. now destruct (default [] _) in E.
      - rewrite Hother by exact Hm. apply Hne. }
    destruct (IH (group_step groups u) (S i) Hne' (Hord Ho)) as [IH1 IH2].
    split; [|exact IH2]. intros m. rewrite IH1. unfold uploads_of. simpl.
    destruct (String.eqb_spec (month u) m) as [<-|Hm].
    + rewrite Hu. fold (uploads_of (month u) uploads).
      destruct (groups_get (month u) groups) as [l|]; simpl.
      * destruct (l ++ [u])%list eqn:El;
          [now destruct l|]. rewrite <- El, <- app_assoc. reflexivity.
      * reflexivity.
    + rewrite Hother by congruence. reflexivity.
Qed.

Lemma obj_set_twice k v o : obj_set k v (obj_set k v o) = obj_set k v o.
Proof.
  induction o as [|[a w] o IH]; simpl.
  - now rewrite String.eqb_refl.
  - destruct (String.eqb k a) eqn:E; simpl.
    + now rewrite String.eqb_refl.
    + destruct (key_before k a) eqn:Hb; simpl.
      * now rewrite String.eqb_refl.
      * now rewrite E, Hb, IH.
Qed.

(** The keys after the loop depend on the months of the uploads only. *)
Lemma group_loop_keys uploads : forall groups i,
  group_keys (forEach (fun g u _ => group_step g u) uploads i groups)
  = fold_left (fun o m => obj_set m EmptyString o) (map month uploads)
      (group_keys groups).
Proof.
  induction uploads as [|u uploads IH]; intros groups i; simpl;
    [reflexivity|].
  rewrite IH. f_equal. unfold group_step.
  destruct (groups_get (month u) groups) eqn:E.
  - rewrite E. apply group_keys_set.
  - rewrite groups_get_set_eq, !group_keys_set. apply obj_set_twice.
Qed.

Lemma uploads_of_map (f : UploadRecord -> UploadRecord) m uploads :
  (forall u, month (f u) = month u) ->
  uploads_of m (map f uploads) = map f (uploads_of m uploads).
Proof.
  intros Hf. unfold uploads_of.
  induction uploads as [|u uploads IH]; simpl; [reflexivity|].
  rewrite Hf. destruct (String.eqb (month u) m); simpl; now rewrite IH.
Qed.

(** Once an exception is thrown the loop keeps it. *)
Lemma group_loop_thrown uploads : forall i msg,
  forEach (fun st u _ =>
             match st with
             | Ok groups => group_upload groups u
             | Err msg => Err msg
             end)
    uploads i (Err msg)
  = Err msg.
Proof.
  induction uploads as [|u uploads IH]; intros i msg; simpl;
    [reflexivity | apply IH].
Qed.

(** The loop from groups whose keys are no names of members of
    [Object.prototype]: it ends without an exception exactly when no
    month is such a name. *)
Lemma group_loop_result uploads : forall groups i,
  (forall k, In k (map fst groups) -> inherited k = false) ->
  let result :=
    forEach (fun st u _ =>
               match st with
               | Ok groups => group_upload groups u
               | Err msg => Err msg
               end)
      uploads i (Ok groups) in
  ((forall u, In u uploads -> inherited (month u) = false) ->
   result = Ok (forEach (fun g u _ => group_step g u) uploads i groups))
  /\ ((exists u, In u uploads /\ inherited (month u) = true) ->
      exists msg, result = Err msg).
Proof.
  induction uploads as [|u uploads IH]; intros groups i Hkeys; simpl.
  - split; [reflexivity | intros (u & [] & _)].
  - destruct (group_upload_cases groups u) as [Hok Herr].
    destruct (inherited (month u)) eqn:Hm.
    + assert (Hnone : groups_get (month u) groups = None).
      { destruct (groups_get (month u) groups) eqn:E; [|reflexivity].
        assert (Hin : In (month u) (map fst groups))
          by (apply groups_get_keys; congruence).
        apply Hkeys in Hin. congruence. }
      destruct (Herr eq_refl Hnone) as [msg Hmsg]. rewrite Hmsg.
      rewrite group_loop_thrown. split; [|eauto].
      intros Hall. specialize (Hall u (or_introl eq_refl)). congruence.
    + rewrite (Hok eq_refl).
      assert (Hkeys' : forall k, In k (map fst (group_step groups u)) ->
                                 inherited k = false).
      { intros k Hk. destruct (String.eqb_spec k (month u)) as [->|Hne];
          [exact Hm|].
        apply Hkeys. apply groups_get_keys. apply groups_get_keys in Hk.
        now rewrite (proj1 (proj2 (group_step_spec groups u)) k Hne) in Hk. }
      destruct (IH (group_step groups u) (S i) Hkeys') as [IH1 IH2].
      split.
      * intros Hall. apply IH1. intros v Hv. apply Hall. now right.
      * intros (v & [<-|Hv] & Hi); [congruence|]. apply IH2. eauto.
Qed.

Lemma groupedUploads_groups (uploads : list UploadRecord) :
  (forall u, In u uploads -> inherited (month u) = false) ->
  exists groups,
    groupedUploads uploads = Ok groups
    /\ groups = forEach (fun g u _ => group_step g u) uploads 0 []
    /\ (forall m, groups_get m groups = group_of m uploads)
    /\ List.NoDup (availableMonths groups)
    /\ (forall m, In m (availableMonths groups)
                  <-> exists u, In u uploads /\ month u = m).
Proof.
  intros Hall.
  destruct (group_loop_result uploads [] 0) as [Hok _]; [intros k []|].
  exists (forEach (fun g u _ => group_step g u) uploads 0 []).
  split; [exact (Hok Hall)|]. split; [reflexivity|].
  destruct (group_loop uploads [] 0) as [Hget Hord];
    [discriminate | constructor |].
  assert (H1 : forall m,
             groups_get m (forEach (fun g u _ => group_step g u) uploads 0 [])
             = group_of m uploads).
  { intros m. unfold group_of. rewrite Hget. simpl.
    now destruct (uploads_of m uploads). }
  split; [exact H1|]. split.
  - unfold availableMonths. rewrite <- group_keys_fst.
    apply obj_ordered_NoDup. exact Hord.
  - intros m. unfold availableMonths. rewrite <- groups_get_keys, H1.
    unfold group_of, uploads_of.
    destruct (List.filter _ uploads) as [|u l] eqn:E.
    + split; [congruence|]. intros (u & Hu & Hm).
      assert (Hin : In u (List.filter (fun u => String.eqb (month u) m)
                            uploads)).
      { apply List.filter_In. split; [exact Hu|]. now apply String.eqb_eq. }
      rewrite E in Hin. destruct Hin.
    + split; [|discriminate]. intros _. exists u.
      assert (Hin : In u (List.filter (fun u => String.eqb (month u) m)
                            uploads)) by (rewrite E; now left).
      apply List.filter_In in Hin as [Hu Hm].
      split; [exact Hu | now apply String.eqb_eq].
Qed.

(** X17: when no month is the name of a member of [Object.prototype], the
    grouping ends without an exception; the groups are the months that
    have an upload, each once as a key; the group of a month holds the
    uploads of that month in the order of the list, so no group is empty;
    and recording a sheet for an upload changes the members of the groups,
    not the grouping.  When a month is such a name, the grouping throws. *)
Theorem X17_groupedUploads_partition (uploads : list UploadRecord) :
  ((forall u, In u uploads -> inherited (month u) = false) ->
   exists groups,
     groupedUploads uploads = Ok groups
     /\ (forall m, groups_get m groups = group_of m uploads)
     /\ List.NoDup (availableMonths groups)
     /\ (forall m, In m (availableMonths groups)
                   <-> exists u, In u uploads /\ month u = m)
     /\ (forall upload sheet,
           exists groups',
             groupedUploads (mapSheet_update upload sheet uploads)
             = Ok groups'
             /\ availableMonths groups' = availableMonths groups
             /\ forall m,
                  groups_get m groups'
                  = option_map (mapSheet_update upload sheet)
                      (groups_get m groups)))
  /\ ((exists u, In u uploads /\ inherited (month u) = true) ->
      exists msg, groupedUploads uploads = Err msg).
Proof.
  split.
  - intros Hall.
    destruct (groupedUploads_groups uploads Hall)
      as (groups & Hg & Eg & H1 & H2 & H3).
    exists groups. split; [exact Hg|]. split; [exact H1|].
    split; [exact H2|]. split; [exact H3|].
    intros upload sheet.
    set (f := fun u =>
                if String.eqb (id u) (id upload)
                then mkUpload (id u) (file_name u) (month u)
                       (financial_year u) (status u) (storage_key u)
                       (uploaded_at u) (Some sheet) (note u)
                else u).
    assert (Hf : forall u, month (f u) = month u).
    { intros u. unfold f. now destruct (String.eqb (id u) (id upload)). }
    change (mapSheet_update upload sheet) with (map f).
    assert (Hall' : forall u, In u (map f uploads) ->
                              inherited (month u) = false).
    { intros u Hu. apply in_map_iff in Hu as (v & <- & Hv).
      rewrite Hf. now apply Hall. }
    destruct (groupedUploads_groups (map f uploads) Hall')
      as (groups' & Hg' & Eg' & H1' & _).
    exists groups'. split; [exact Hg'|]. split.
    + unfold availableMonths. rewrite <- !group_keys_fst.
      rewrite Eg, Eg', !group_loop_keys, map_map.
      now rewrite (map_ext _ _ Hf).
    + intros m. rewrite H1, H1'. unfold group_of.
      rewrite uploads_of_map by exact Hf.
      now destruct (uploads_of m uploads).
  - apply (group_loop_result uploads [] 0). intros k [].
Qed.

(** ** Instances *)

(** The header "Place Of Supply" of the b2b mapping denotes a
    place-of-supply column: the value "07-Delhi" is typed as "Delhi". *)
Lemma C2_cleanPlaceOfSupply_strips_code_witness :
  is_place_of_supply "Place Of Supply" = true
  /\ final_value "Place Of Supply" "07-Delhi" = "Delhi".
Proof.
  split; [reflexivity|].
  exact (proj1 (C2_cleanPlaceOfSupply_strips_code "Place Of Supply"
                  "07-Delhi") eq_refl).
Defined.

(** The value "1000" of a taxable-value column: it is not empty and holds
    no comma, and is written as the number 1000. *)
Lemma C3_written_type_witness :
  is_empty "1000" = false
  /\ includes (final_value "Taxable Value" "1000") "," = false
  /\ typed_cell "Taxable Value" "1000" = number_cell (Finite (1000 # 1)).
Proof.
  split; [reflexivity|]. split; [reflexivity|].
  exact (proj2 (proj2 C3_written_type) "Taxable Value" "1000"
           eq_refl eq_refl).
Defined.


(** The two sample files in order, on a failed template: the rows of the
    second start no higher than the rows of the first. *)
Lemma C6_rows_in_file_order_witness :
  generateGSTR1Excel no_toString None ([] ++ file_A :: [] ++ file_B :: [])
  = Ok book_AB
  /\ exists wb wb2 sA sB,
       file_rows wb file_A = Some ("b2b", sA, 2)
       /\ file_rows wb2 file_B = Some ("b2b", sB, 1)
       /\ sA <= sB.
Proof.
  assert (Hgen : generateGSTR1Excel no_toString None
                   ([] ++ file_A :: [] ++ file_B :: []) = Ok book_AB)
    by (vm_compute; reflexivity).
  split; [exact Hgen|].
  destruct (proj1 (C6_rows_in_file_order no_toString)
              None [] file_A [] file_B [] book_AB Hgen)
    as (wb & wb1 & wb2 & wb3 & Hpre & HA & Hmid & HB & Hpost & Hrows).
  assert (Ewb : wb = book_new) by (now injection Hpre).
  subst wb.
  assert (E1 : @Ok WorkBook wb1 = Ok book_A)
    by (rewrite <- HA; vm_compute; reflexivity).
  injection E1 as ->.
  assert (E2 : wb2 = book_A) by (now injection Hmid).
  subst wb2.
  assert (HrA : file_rows book_new file_A = Some ("b2b", 1, 2))
    by (vm_compute; reflexivity).
  assert (HrB : file_rows book_A file_B = Some ("b2b", 2, 1))
    by (vm_compute; reflexivity).
  exists book_new, book_A, 1, 2.
  split; [exact HrA|]. split; [exact HrB|].
  exact (proj1 (Hrows "b2b" 1 2 2 1 HrA HrB)).
Defined.

(** A header line and one data line give one record. *)
Lemma C7_parseCSV_records_witness :
  1 < length (split_lines (trim ("A,B" ++ LF ++ "1,2")))
  /\ parseCSV ("A,B" ++ LF ++ "1,2") = [[("A", "1"); ("B", "2")]].
Proof.
  split; [exact (le_n 2)|].
  exact (proj1 (proj2 (C7_parseCSV_records ("A,B" ++ LF ++ "1,2")))
           (le_n 2)).
Defined.

(** A file named "notes.txt" has no category and leaves the workbook as
    it is. *)
Lemma C8_unclassified_file_skipped_witness :
  getSheetName "notes.txt" = None
  /\ process_file no_toString book_A (mkFile "notes.txt" "X,Y") = Ok book_A.
Proof.
  split; [reflexivity|].
  exact (proj1 (proj2 C8_unclassified_file_skipped) no_toString book_A
           (mkFile "notes.txt" "X,Y") eq_refl).
Defined.

(** Processing the second sample file changes no sheet but b2b. *)
Lemma C10_only_category_sheet_changes_witness :
  process_file no_toString book_A file_B = Ok book_AB
  /\ (forall n, n <> "b2b" -> Sheets book_AB !! n = Sheets book_A !! n).
Proof.
  assert (H : process_file no_toString book_A file_B = Ok book_AB)
    by (vm_compute; reflexivity).
  split; [exact H|].
  exact (proj1 (C10_only_category_sheet_changes no_toString book_A file_B
                  book_AB H)).
Defined.

(** Two plain fields joined by a comma parse back to the two fields. *)
Lemma X1_parseLine_join_witness :
  (forall g, In g ["07-Delhi"; "1000"] ->
             all_chars plain_char g = true /\ trim g = g)
  /\ parseLine (String.concat "," ["07-Delhi"; "1000"])
     = ["07-Delhi"; "1000"].
Proof.
  assert (H : forall g, In g ["07-Delhi"; "1000"] ->
                        all_chars plain_char g = true /\ trim g = g)
    by (intros g [<-|[<-|[]]]; split; reflexivity).
  split; [exact H|].
  exact (X1_parseLine_join "07-Delhi" ["1000"] H).
Defined.

(** A quoted field with a comma inside is one field, trimmed. *)
Lemma X2_parseLine_quotes_witness :
  all_chars not_quote " Delhi, North " = true
  /\ parseLine (QUOTE ++ " Delhi, North " ++ QUOTE) = ["Delhi, North"].
Proof.
  split; [reflexivity|].
  exact (proj2 X2_parseLine_quotes " Delhi, North " eq_refl).
Defined.

(** Two lines joined by a line feed, or by carriage return and line feed,
    split back into the two lines. *)
Lemma X3_split_lines_join_witness :
  (forall x, In x ["X,Y"; "1,2"] -> all_chars not_eol x = true)
  /\ split_lines ("X,Y" ++ LF ++ "1,2") = ["X,Y"; "1,2"]
  /\ split_lines ("X,Y" ++ CRLF ++ "1,2") = ["X,Y"; "1,2"].
Proof.
  assert (H : forall x, In x ["X,Y"; "1,2"] -> all_chars not_eol x = true)
    by (intros x [<-|[<-|[]]]; reflexivity).
  split; [exact H|].
  exact (X3_split_lines_join "X,Y" ["1,2"] H).
Defined.

(** A header line, a data line, a blank line and a data line give two
    records with the keys of the header. *)
Lemma X4_parseCSV_rectangular_witness :
  1 < length (split_lines (trim ("A,B" ++ LF ++ "1,2" ++ LF ++ LF ++ "3")))
  /\ In [("A", "3"); ("B", "")]
       (parseCSV ("A,B" ++ LF ++ "1,2" ++ LF ++ LF ++ "3"))
  /\ length (parseCSV ("A,B" ++ LF ++ "1,2" ++ LF ++ LF ++ "3")) = 2
  /\ List.NoDup (obj_keys [("A", "3"); ("B", "")]).
Proof.
  assert (H1 : 1 < length (split_lines
                             (trim ("A,B" ++ LF ++ "1,2" ++ LF ++ LF ++ "3"))))
    by (vm_compute; lia).
  assert (H2 : In [("A", "3"); ("B", "")]
                 (parseCSV ("A,B" ++ LF ++ "1,2" ++ LF ++ LF ++ "3")))
    by (vm_compute; auto).
  split; [exact H1|]. split; [exact H2|].
  pose proof (X4_parseCSV_rectangular
                ("A,B" ++ LF ++ "1,2" ++ LF ++ LF ++ "3")) as H.
  cbv zeta in H. destruct H as (_ & Hrow & Hlen).
  split; [exact (Hlen H1) | exact (proj1 (Hrow _ H2))].
Defined.

(** An object in property order has its values trimmed. *)
Lemma X5_trimAll_keeps_records_witness :
  obj_ordered [("A", " 1 "); ("B", "2")]
  /\ trimAll [("A", " 1 "); ("B", "2")] = [("A", "1"); ("B", "2")].
Proof.
  assert (H : obj_ordered [("A", " 1 "); ("B", "2")]).
  { unfold obj_ordered, key_follows. simpl.
    repeat constructor; discriminate. }
  split; [exact H|].
  exact (proj1 X5_trimAll_keeps_records [("A", " 1 "); ("B", "2")] H).
Defined.

(** A b2b file name in mixed case: its category is the one of the
    upper-cased name, and is registered. *)
Lemma X6_classifier_case_and_registry_witness :
  all_chars is_ascii "B2b_Jan.csv" = true
  /\ getSheetName "B2b_Jan.csv" = Some "b2b"
  /\ getSheetName (toLowerCase "B2b_Jan.csv") = getSheetName "B2b_Jan.csv"
  /\ In "b2b" (map snd keywords)
  /\ mapping_for "b2b" <> [].
Proof.
  split; [reflexivity|]. split; [reflexivity|]. split.
  - exact (proj2 (proj1 X6_classifier_case_and_registry "B2b_Jan.csv"
                    eq_refl)).
  - exact (proj2 X6_classifier_case_and_registry "B2b_Jan.csv" "b2b" eq_refl).
Defined.

(** The record of the second sample file appended to the sheet of the
    first. *)
Lemma X8_append_extent_witness :
  file_data file_B <> []
  /\ sheet_range (appendDataToSheet no_toString sheet_A (file_data file_B)
                    (mapping_for "b2b") "b2b")
     = mkRange 0 0 2 1
  /\ startRow (appendDataToSheet no_toString sheet_A (file_data file_B)
                 (mapping_for "b2b") "b2b") <= 3.
Proof.
  assert (H : file_data file_B <> []) by (vm_compute; discriminate).
  split; [exact H|].
  destruct (X8_append_extent no_toString sheet_A (file_data file_B)
              (mapping_for "b2b") "b2b" H) as (Hr & Hs & _).
  split; [exact Hr | exact (proj2 Hs)].
Defined.

(** The sheet made of the first sample file keeps its columns when the
    second sample file is processed. *)
Lemma X9_template_columns_stable_witness :
  Sheets book_A !! "b2b" = Some sheet_A
  /\ process_files no_toString book_A [file_B] = Ok book_AB
  /\ exists sheet',
       Sheets book_AB !! "b2b" = Some sheet'
       /\ templateHeaders_of no_toString sheet' (sheet_range sheet')
          = templateHeaders_of no_toString sheet_A (sheet_range sheet_A).
Proof.
  assert (H1 : Sheets book_A !! "b2b" = Some sheet_A)
    by (vm_compute; reflexivity).
  assert (H2 : process_files no_toString book_A [file_B] = Ok book_AB)
    by (vm_compute; reflexivity).
  split; [exact H1|]. split; [exact H2|].
  destruct (X9_template_columns_stable no_toString [file_B] book_A book_AB
              "b2b" sheet_A H1 H2) as (sheet' & Hs & Hh & _).
  exists sheet'. split; [exact Hs | exact Hh].
Defined.

(** The record of the second sample file appended twice. *)
Lemma X10_append_twice_witness :
  startRow (appendDataToSheet no_toString sheet_A (file_data file_B)
              (mapping_for "b2b") "b2b")
  = startRow sheet_A + length (file_data file_B)
  /\ appendDataToSheet no_toString
       (appendDataToSheet no_toString sheet_A (file_data file_B)
          (mapping_for "b2b") "b2b")
       (file_data file_B) (mapping_for "b2b") "b2b"
     = appendDataToSheet no_toString sheet_A
         (file_data file_B ++ file_data file_B)%list (mapping_for "b2b")
         "b2b".
Proof.
  assert (H : startRow (appendDataToSheet no_toString sheet_A
                          (file_data file_B) (mapping_for "b2b") "b2b")
              = startRow sheet_A + length (file_data file_B))
    by (vm_compute; reflexivity).
  split; [exact H|].
  exact (X10_append_twice no_toString sheet_A (file_data file_B)
           (file_data file_B) (mapping_for "b2b") "b2b" H).
Defined.

(** The first sample file on the empty workbook: the name b2b is added
    and the header "X" is in row 0. *)
Lemma X11_first_file_sheet_witness :
  sheets_listed book_new
  /\ file_data file_A <> []
  /\ exists wb' sheet (hdr : list string),
       process_file no_toString book_new file_A = Ok wb'
       /\ SheetNames wb' = ["b2b"]
       /\ Sheets wb' !! "b2b" = Some sheet
       /\ In "X" hdr.
Proof.
  assert (H1 : sheets_listed book_new)
    by (intros n _; simpl; apply not_elem_of_nil).
  assert (H2 : file_data file_A <> []) by (vm_compute; discriminate).
  split; [exact H1|]. split; [exact H2|].
  destruct (X11_first_file_sheet no_toString book_new file_A "b2b" H1
              eq_refl eq_refl H2)
    as (wb' & sheet & hdr & Hp & Hn & Hs & _ & _ & _ & Hh & _).
  exists wb', sheet, hdr.
  split; [exact Hp|]. split; [exact Hn|]. split; [exact Hs|].
  apply Hh; [vm_compute; auto | discriminate].
Defined.

(** A b2b file with a header line only leaves the workbook as it is. *)
Lemma X12_file_without_records_skipped_witness :
  List.filter not_blank
    (tl (split_lines (trim (content file_header_only)))) = []
  /\ process_file no_toString book_A file_header_only = Ok book_A
  /\ generateGSTR1Excel no_toString None
       ([file_A] ++ file_header_only :: [file_B])%list
     = generateGSTR1Excel no_toString None ([file_A] ++ [file_B])%list.
Proof.
  assert (H : List.filter not_blank
                (tl (split_lines (trim (content file_header_only)))) = [])
    by reflexivity.
  split; [exact H|]. split.
  - exact (proj1 (X12_file_without_records_skipped no_toString) book_A
             file_header_only H).
  - exact (proj2 (X12_file_without_records_skipped no_toString) None
             [file_A] file_header_only [file_B] H).
Defined.

(** A b2b file and an hsn file, from the empty workbook. *)
Lemma X13_categories_independent_witness :
  sheets_listed book_new
  /\ getSheetName (name file_A) <> getSheetName (name file_H)
  /\ exists wab wba,
       process_files no_toString book_new [file_A; file_H] = Ok wab
       /\ process_files no_toString book_new [file_H; file_A] = Ok wba
       /\ Sheets wab = Sheets wba
       /\ Permutation (SheetNames wab) (SheetNames wba).
Proof.
  assert (H1 : sheets_listed book_new)
    by (intros n _; simpl; apply not_elem_of_nil).
  assert (H2 : getSheetName (name file_A) <> getSheetName (name file_H))
    by (vm_compute; discriminate).
  split; [exact H1|]. split; [exact H2|].
  exact (X13_categories_independent no_toString book_new file_A file_H
           H1 H2).
Defined.

(** Generation from the empty workbook as template, with the two sample
    files. *)
Lemma X14_generation_from_template_witness :
  sheets_listed book_new
  /\ exists wb added,
       generateGSTR1Excel no_toString (Some book_new) [file_A; file_B]
       = Ok wb
       /\ SheetNames wb = (SheetNames book_new ++ added)%list.
Proof.
  assert (H : sheets_listed book_new)
    by (intros n _; simpl; apply not_elem_of_nil).
  split; [exact H|].
  destruct (X14_generation_from_template no_toString book_new
              [file_A; file_B] H) as (wb & added & Hg & _ & Hn & _).
  exists wb, added. split; [exact Hg | exact Hn].
Defined.

(** The two sample files: the value "3" of the second file goes under the
    header "X" written for the first. *)
Lemma X15_later_file_under_first_headers_witness :
  process_file no_toString book_new file_A = Ok book_A
  /\ process_file no_toString book_A file_B = Ok book_AB
  /\ file_data file_B !! 0 = Some [("X", "3"); ("Y", "4")]
  /\ inherited "X" = false
  /\ exists sheet2 sheet3 C,
       Sheets book_A !! "b2b" = Some sheet2
       /\ Sheets book_AB !! "b2b" = Some sheet3
       /\ cells sheet3 !! (0, C) = Some (text_cell "X")
       /\ cells sheet3 !! (startRow sheet2 + 0, C)
          = Some (typed_cell "X"
                    (resolve (mapping_for "b2b") [("X", "3"); ("Y", "4")]
                       "X")).
Proof.
  assert (HA : process_file no_toString book_new file_A = Ok book_A)
    by (vm_compute; reflexivity).
  assert (HB : process_file no_toString book_A file_B = Ok book_AB)
    by (vm_compute; reflexivity).
  assert (Hj : file_data file_B !! 0 = Some [("X", "3"); ("Y", "4")])
    by (vm_compute; reflexivity).
  split; [exact HA|]. split; [exact HB|]. split; [exact Hj|].
  split; [reflexivity|].
  apply (X15_later_file_under_first_headers no_toString book_new file_A []
           file_B book_A book_A book_AB "b2b" "X" 0
           [("X", "3"); ("Y", "4")]).
  - reflexivity.
  - reflexivity.
  - reflexivity.
  - vm_compute. discriminate.
  - vm_compute. auto.
  - reflexivity.
  - reflexivity.
  - exact HA.
  - reflexivity.
  - exact HB.
  - exact Hj.
Defined.

Lemma X16_financial_years_witness :
  nth 1 (generateFinancialYears (mkToday 2100 1) 5) EmptyString = "2098-99"
  /\ nth 0 (generateFinancialYears (mkToday 2100 1) 5) EmptyString = "2099-00".
Proof.
  split.
  - exact (proj1 (proj2 (proj2 (proj2
             (X16_financial_years (mkToday 2100 1) 5))) 1
             ltac:(lia) ltac:(vm_compute; split; discriminate))).
  - exact (proj1 (proj2 (proj2 (proj2
             (X16_financial_years (mkToday 2100 1) 5))) 0
             ltac:(lia) ltac:(vm_compute; split; discriminate))).
Defined.

(** The three sample uploads: the second April upload joins the first, and
    the months are April and May.  An upload whose month is "constructor"
    makes the grouping throw. *)
Lemma X17_groupedUploads_partition_witness :
  (forall u, In u [upload_1; upload_2; upload_3] ->
             inherited (month u) = false)
  /\ (exists groups,
        groupedUploads [upload_1; upload_2; upload_3] = Ok groups
        /\ groups_get "April" groups = Some [upload_1; upload_3]
        /\ List.NoDup (availableMonths groups))
  /\ (exists msg, groupedUploads [upload_1; upload_odd] = Err msg).
Proof.
  assert (H : forall u, In u [upload_1; upload_2; upload_3] ->
                        inherited (month u) = false)
    by (intros u [<-|[<-|[<-|[]]]]; reflexivity).
  split; [exact H|]. split.
  - destruct (proj1 (X17_groupedUploads_partition
                       [upload_1; upload_2; upload_3]) H)
      as (groups & Hg & Hget & Hnd & _).
    exists groups. split; [exact Hg|]. split; [|exact Hnd].
    exact (Hget "April").
  - apply (proj2 (X17_groupedUploads_partition [upload_1; upload_odd])).
    exists upload_odd. split; [right; now left | reflexivity].
Defined.
